(** * TextEditActionStack: the undo/redo history of a text editor

    A shallow embedding of [src/texteditactionstack.js] (with
    [src/texteditaction.js], [src/texteditactiontype.js] and
    [src/abstracteditoridentify.js]) and the properties of its merge policy,
    of [undo]/[redo] and of the [actionCreate] notification.

    JavaScript values are modelled as follows.
    - A string is the list of its UTF-16 code units; [length] is the JS
      [length] and [++] is JS [+].
    - A number holding a position or a length is an integer of [Z].  The
      source adds and subtracts them as IEEE doubles, which is exact as long
      as the operands and the result are safe integers (at most [2^53 - 1]
      in magnitude, as every offset into a JavaScript string is).  Where a
      statement depends on such a sum or difference being different from a
      position, it carries that bound ([exactSum], [exactDifference]).
    - An array is a [list] in index order: [push] appends at the end and
      [pop] removes the last element.
    - No method assigns to a field of a record or of a change, or to an
      element of a change array: every merge and every stamp builds a new
      [TextEditAction], and a fold copies the changes with [slice].  Records
      and arrays are therefore values here.
    - A method of the stack is a function from the object's state to a
      completion (a normal value or a thrown [TypeError]) and the new state.
    - The packages [jstextdiffpatch] and [jsevent] are not part of the
      repository: the diff engine and the cursor patch are parameters, and
      [dispatch] records what it was given and what a synchronous listener
      would find in the two histories at that moment. *)

From Stdlib Require Import String Ascii ZArith List Bool Lia.
Import ListNotations.

Set Implicit Arguments.

(* ------------------------------------------------------------------ *)
(** ** JavaScript strings and arrays *)

Definition codeUnit := N.
Definition jsString := list codeUnit.

(** A string literal of the source. *)
Definition js (s : string) : jsString :=
  map N_of_ascii (list_ascii_of_string s).

Definition LF : codeUnit := 10%N.

(** [s.length] *)
Definition jsLength (s : jsString) : Z := Z.of_nat (length s).

(** [/^\n+$/.test(s)]: without the [m] flag [^] and [$] match only at the two
    ends of the input, so the test holds when [s] is one or more line feeds. *)
Definition newlinesOnly (s : jsString) : bool :=
  match s with
  | [] => false
  | _ :: _ => forallb (N.eqb LF) s
  end.

(** [arr.length] *)
Definition arrayLength {A} (arr : list A) : Z := Z.of_nat (length arr).

(** [arr[i]]: [undefined] (here [None]) outside the array. *)
Definition item {A} (arr : list A) (i : Z) : option A :=
  if (i <? 0)%Z then None else nth_error arr (Z.to_nat i).

(** [arr.slice(0, e)] for the end indices the stack uses ([e >= -1]; at
    [e = -1] the array is empty and so is the slice). *)
Definition slice0 {A} (arr : list A) (e : Z) : list A :=
  firstn (Z.to_nat e) arr.

(** [arr.push(x)] leaves [arr ++ [x]]; [arr.pop()] returns [last arr] and
    leaves [removelast arr]. *)
Definition lastItem {A} (arr : list A) : option A :=
  item arr (arrayLength arr - 1).

(* ------------------------------------------------------------------ *)
(** ** The records of the collaborating packages *)

(** Modelled from the spec: [ChangeType] of [jstextdiffpatch], whose
    declaration is not in the repository; the spec's change record has
    kind [added | removed]. *)
Inductive ChangeType := added | removed.

Definition ChangeType_eqb (a b : ChangeType) : bool :=
  match a, b with
  | added, added | removed, removed => true
  | _, _ => false
  end.

(** Modelled from the spec: [TextChange] of [jstextdiffpatch],
    [new TextChange(position, changeType, text)]. *)
Record TextChange := newTextChange {
  position : Z;
  changeType : ChangeType;
  text : jsString
}.

(** Modelled from the spec: [TextSelection] of [jstextselection],
    a range [{start, end}]; [end] is a keyword here, hence [end_]. *)
Record TextSelection := newTextSelection {
  start : Z;
  end_ : Z
}.

(** [src/texteditactiontype.js] *)
Inductive TextEditActionType := update_ | restore.

(** A thrown exception: reading a property of [undefined]. *)
Inductive JsError := TypeError.

Inductive Completion (A : Type) :=
| Normal (a : A)
| Throw (e : JsError).
Arguments Normal {A} a.
Arguments Throw {A} e.

(** [src/abstracteditoridentify.js]: an identity is anything with an
    [equals] method; [a.equals(b)] is [equals a b]. *)
Class EditorIdentify (Ident : Type) := equals : Ident -> Ident -> bool.

(** [TextDiffPatch] of [jstextdiffpatch]. *)
Module TextDiffPatch.
Class Engine := {
  diff : jsString -> jsString -> list TextChange;
  apply : jsString -> list TextChange -> jsString;
  reverse : list TextChange -> list TextChange
}.
End TextDiffPatch.

(** [CursorPatch] of [jstextdiffpatch]. *)
Module CursorPatch.
Class Engine := {
  apply : TextSelection -> list TextChange -> TextSelection
}.
End CursorPatch.

(* ------------------------------------------------------------------ *)
(** ** The edit record and the stack object *)

Section Model.

Context {Ident : Type} {identify : EditorIdentify Ident}.
Context {textDiffPatch : TextDiffPatch.Engine} {cursorPatch : CursorPatch.Engine}.

(** [src/texteditaction.js] *)
Record TextEditAction := newTextEditAction {
  editorIdentify : Ident;
  selectionBefore : TextSelection;
  selectionAfter : TextSelection;
  textChanges : list TextChange
}.

(** The payload of an [actionCreate] event. *)
Record ActionCreate := newActionCreate {
  textEditActionType : TextEditActionType;
  textEditAction : TextEditAction
}.

(** One call of [super.dispatch]: the event name, the payload, and the two
    histories as they are while the listeners run. *)
Record Dispatched := newDispatched {
  eventName : string;
  payload : ActionCreate;
  undoActionsSeen : list TextEditAction;
  redoActionsSeen : list TextEditAction
}.

(** The fields of a [TextEditActionStack]; [dispatched] is the log of the
    inherited event object, oldest first. *)
Record TextEditActionStack := newStackState {
  this_editorIdentify : Ident;
  undoActions : list TextEditAction;
  redoActions : list TextEditAction;
  dispatched : list Dispatched
}.

(** [new TextEditActionStack(editorIdentify)] *)
Definition constructor (editorIdentify : Ident) : TextEditActionStack :=
  newStackState editorIdentify [] [] [].

(** *** Methods as state transformers *)

Definition Method (A : Type) : Type :=
  TextEditActionStack -> Completion A * TextEditActionStack.

Definition ret {A} (a : A) : Method A := fun s => (Normal a, s).

Definition bind {A B} (m : Method A) (k : A -> Method B) : Method B :=
  fun s =>
    match m s with
    | (Normal a, s') => k a s'
    | (Throw e, s') => (Throw e, s')
    end.

Definition throw {A} (e : JsError) : Method A := fun s => (Throw e, s).

(** The object itself, to read its fields. *)
Definition this : Method TextEditActionStack := fun s => (Normal s, s).

(** A value whose property is about to be read. *)
Definition defined {A} (v : option A) : Method A :=
  match v with
  | Some a => ret a
  | None => throw TypeError
  end.

Definition undoActions_set (l : list TextEditAction) : Method unit :=
  fun s => (Normal tt,
            newStackState (this_editorIdentify s) l (redoActions s) (dispatched s)).

Definition redoActions_set (l : list TextEditAction) : Method unit :=
  fun s => (Normal tt,
            newStackState (this_editorIdentify s) (undoActions s) l (dispatched s)).

(** [this.undoActions.push(a)] *)
Definition undoActions_push (a : TextEditAction) : Method unit :=
  fun s => undoActions_set (undoActions s ++ [a]) s.

(** [this.undoActions.pop()] *)
Definition undoActions_pop : Method (option TextEditAction) :=
  fun s =>
    (Normal (lastItem (undoActions s)),
     newStackState (this_editorIdentify s) (removelast (undoActions s))
                   (redoActions s) (dispatched s)).

(** [this.redoActions.push(a)] *)
Definition redoActions_push (a : TextEditAction) : Method unit :=
  fun s => redoActions_set (redoActions s ++ [a]) s.

(** [this.redoActions.pop()] *)
Definition redoActions_pop : Method (option TextEditAction) :=
  fun s =>
    (Normal (lastItem (redoActions s)),
     newStackState (this_editorIdentify s) (undoActions s)
                   (removelast (redoActions s)) (dispatched s)).

(** [super.dispatch(name, payload)] *)
Definition dispatch (name : string) (p : ActionCreate) : Method unit :=
  fun s =>
    (Normal tt,
     newStackState (this_editorIdentify s) (undoActions s) (redoActions s)
                   (dispatched s
                    ++ [newDispatched name p (undoActions s) (redoActions s)])).

End Model.

Arguments TextEditAction Ident : clear implicits.
Arguments ActionCreate Ident : clear implicits.
Arguments Dispatched Ident : clear implicits.
Arguments TextEditActionStack Ident : clear implicits.
Arguments Method Ident A : clear implicits.

Declare Scope method_scope.
Delimit Scope method_scope with method.
Notation "x <- m ;; k" := (bind m (fun x => k))
  (at level 100, m at next level, right associativity) : method_scope.
Notation "' p <- m ;; k" := (bind m (fun p => k))
  (at level 100, p pattern, m at next level, right associativity) : method_scope.
Notation "m ;; k" := (bind m (fun _ => k))
  (at level 100, right associativity) : method_scope.

(* ------------------------------------------------------------------ *)
(** ** The methods of [TextEditActionStack] *)

Section Methods.

Context {Ident : Type} {identify : EditorIdentify Ident}.
Context {textDiffPatch : TextDiffPatch.Engine} {cursorPatch : CursorPatch.Engine}.

Local Open Scope method_scope.
Local Open Scope Z_scope.

Local Abbreviation Action := (TextEditAction Ident).
Local Abbreviation Stack := (TextEditActionStack Ident).

(** What [applyTextEditAction] and
    [updateAndApplyByExternalTextEditAction] return. *)
Record Applied := newApplied {
  textContent : jsString;
  selection : TextSelection
}.

(** What [undo] and [redo] return: [{textContent, selection, textEditAction}]. *)
Record Restored := newRestored {
  restoredTextContent : jsString;
  restoredSelection : TextSelection;
  restoredTextEditAction : Action
}.

Definition canUndo (s : Stack) : bool := 0 <? arrayLength (undoActions s).

Definition canRedo (s : Stack) : bool := 0 <? arrayLength (redoActions s).

(** [clear()] *)
Definition clear : Method Ident unit :=
  undoActions_set [] ;;
  redoActions_set [].

(** [pushIntoUndoStack(currentTextEditAction)].

    The four tests of the first [if] are taken in the source's order, each
    only when the ones before it are false.  The branches of the second part
    assign [combinedTextChanges] and [selectionBefore] (and pop the top entry
    when they fold); the common tail builds the new record and pushes it. *)
Definition pushIntoUndoStack (currentTextEditAction : Action) : Method Ident unit :=
  let editorIdentify_ := editorIdentify currentTextEditAction in
  let textChanges_ := textChanges currentTextEditAction in
  let selectionBefore_ := selectionBefore currentTextEditAction in
  let selectionAfter_ := selectionAfter currentTextEditAction in
  self <- this ;;
  let lastTextEditAction :=
    if 0 <? arrayLength (undoActions self)
    then item (undoActions self) (arrayLength (undoActions self) - 1)
    else None in
  let pushAsIs : Method Ident unit :=
    (let textEditAction :=
       newTextEditAction editorIdentify_ selectionBefore_ selectionAfter_ textChanges_ in
     undoActions_push textEditAction ;;
     redoActions_set []) in
  if arrayLength (undoActions self) =? 0 then pushAsIs
  else if 1 <? arrayLength textChanges_ then pushAsIs
  else if negb (start selectionAfter_ =? end_ selectionAfter_) then pushAsIs
  else
    last <- defined lastTextEditAction ;;
    if negb (equals editorIdentify_ (editorIdentify last)) then pushAsIs
    else
      let lastTextChanges := textChanges last in
      let lastTextChange := item lastTextChanges (arrayLength lastTextChanges - 1) in
      let currentTextChange := item textChanges_ 0 in
      ' (combinedTextChanges, selectionBefore') <-
        (cur <- defined currentTextChange ;;
         if newlinesOnly (text cur) then ret ([cur], selectionBefore_)
         else
           lst <- defined lastTextChange ;;
           if newlinesOnly (text lst) then ret ([cur], selectionBefore_)
           else if ChangeType_eqb (changeType lst) added
                   && ChangeType_eqb (changeType cur) added then
             if position cur =? position lst + jsLength (text lst) then
               let combinedTextChange :=
                 newTextChange (position lst) added (text lst ++ text cur) in
               let combinedTextChanges :=
                 slice0 lastTextChanges (arrayLength lastTextChanges - 1)
                 ++ [combinedTextChange] in
               undoActions_pop ;;
               ret (combinedTextChanges, selectionBefore last)
             else ret ([cur], selectionBefore_)
           else if ChangeType_eqb (changeType lst) removed
                   && ChangeType_eqb (changeType cur) removed then
             if position cur =? position lst then
               let combinedTextChange :=
                 newTextChange (position lst) removed (text lst ++ text cur) in
               let combinedTextChanges :=
                 slice0 lastTextChanges (arrayLength lastTextChanges - 1)
                 ++ [combinedTextChange] in
               undoActions_pop ;;
               ret (combinedTextChanges, selectionBefore last)
             else if position cur =? position lst - jsLength (text cur) then
               let combinedTextChange :=
                 newTextChange (position cur) removed (text cur ++ text lst) in
               let combinedTextChanges :=
                 slice0 lastTextChanges (arrayLength lastTextChanges - 1)
                 ++ [combinedTextChange] in
               undoActions_pop ;;
               ret (combinedTextChanges, selectionBefore last)
             else ret ([cur], selectionBefore_)
           else ret ([cur], selectionBefore_)) ;;
      let textEditAction :=
        newTextEditAction editorIdentify_ selectionBefore' selectionAfter_
                          combinedTextChanges in
      undoActions_push textEditAction ;;
      redoActions_set [].

(** [updateByTextChanges(textChanges, lastSelection, selection)] *)
Definition updateByTextChanges (textChanges : list TextChange)
    (lastSelection selection : TextSelection) : Method Ident Action :=
  self <- this ;;
  let textEditAction :=
    newTextEditAction (this_editorIdentify self) lastSelection selection textChanges in
  dispatch "actionCreate" (newActionCreate update_ textEditAction) ;;
  pushIntoUndoStack textEditAction ;;
  ret textEditAction.

(** [update(lastTextContent, textContent, lastSelection, selection)] *)
Definition update (lastTextContent textContent : jsString)
    (lastSelection selection : TextSelection) : Method Ident Action :=
  let textChanges := TextDiffPatch.diff lastTextContent textContent in
  updateByTextChanges textChanges lastSelection selection.

(** [updateAndApplyByExternalTextEditAction(textEditAction, lastTextContent,
    lastSelection)] *)
Definition updateAndApplyByExternalTextEditAction (textEditAction : Action)
    (lastTextContent : jsString) (lastSelection : TextSelection)
  : Method Ident Applied :=
  let textContent := TextDiffPatch.apply lastTextContent (textChanges textEditAction) in
  pushIntoUndoStack textEditAction ;;
  let selection := CursorPatch.apply lastSelection (textChanges textEditAction) in
  ret (newApplied textContent selection).

(** [applyTextEditAction(textEditAction, lastTextContent)] *)
Definition applyTextEditAction (textEditAction : Action) (lastTextContent : jsString)
  : Applied :=
  let textContent := TextDiffPatch.apply lastTextContent (textChanges textEditAction) in
  let selection := selectionAfter textEditAction in
  newApplied textContent selection.

(** [reverseAction(textEditAction)] *)
Definition reverseAction (textEditAction : Action) : Action :=
  newTextEditAction
    (editorIdentify textEditAction)
    (selectionAfter textEditAction)
    (selectionBefore textEditAction)
    (TextDiffPatch.reverse (textChanges textEditAction)).

(** [undo(lastTextContent)]; [None] is the [undefined] of the bare [return]. *)
Definition undo (lastTextContent : jsString) : Method Ident (option Restored) :=
  self <- this ;;
  if negb (canUndo self) then ret None
  else
    popped <- undoActions_pop ;;
    textEditAction <- defined popped ;;
    let repackedTextEditAction :=
      newTextEditAction
        (this_editorIdentify self)
        (selectionBefore textEditAction)
        (selectionAfter textEditAction)
        (textChanges textEditAction) in
    redoActions_push repackedTextEditAction ;;
    let reverseTextEditAction := reverseAction repackedTextEditAction in
    let applied := applyTextEditAction reverseTextEditAction lastTextContent in
    dispatch "actionCreate" (newActionCreate restore reverseTextEditAction) ;;
    ret (Some (newRestored (textContent applied) (selection applied)
                           reverseTextEditAction)).

(** [redo(lastTextContent)] *)
Definition redo (lastTextContent : jsString) : Method Ident (option Restored) :=
  self <- this ;;
  if negb (canRedo self) then ret None
  else
    popped <- redoActions_pop ;;
    textEditAction <- defined popped ;;
    let repackedTextEditAction :=
      newTextEditAction
        (this_editorIdentify self)
        (selectionBefore textEditAction)
        (selectionAfter textEditAction)
        (textChanges textEditAction) in
    undoActions_push repackedTextEditAction ;;
    let applied := applyTextEditAction repackedTextEditAction lastTextContent in
    dispatch "actionCreate" (newActionCreate restore repackedTextEditAction) ;;
    ret (Some (newRestored (textContent applied) (selection applied)
                           repackedTextEditAction)).

End Methods.

Arguments Applied : clear implicits.
Arguments Restored Ident : clear implicits.

(* ------------------------------------------------------------------ *)
(** ** Sequences of calls *)

Section Calls.

Context {Ident : Type} {identify : EditorIdentify Ident}.
Context {textDiffPatch : TextDiffPatch.Engine} {cursorPatch : CursorPatch.Engine}.

(** One call of a public method by the owner of the stack. *)
Inductive Call :=
| CallClear
| CallUpdate (lastTextContent textContent : jsString)
             (lastSelection selection : TextSelection)
| CallUpdateByTextChanges (textChanges : list TextChange)
                          (lastSelection selection : TextSelection)
| CallExternal (textEditAction : TextEditAction Ident)
               (lastTextContent : jsString) (lastSelection : TextSelection)
| CallUndo (lastTextContent : jsString)
| CallRedo (lastTextContent : jsString).

(** The state a call leaves behind, whether it returns or throws. *)
Definition call (c : Call) (s : TextEditActionStack Ident) : TextEditActionStack Ident :=
  match c with
  | CallClear => snd (clear s)
  | CallUpdate t0 t1 s0 s1 => snd (update t0 t1 s0 s1 s)
  | CallUpdateByTextChanges tc s0 s1 => snd (updateByTextChanges tc s0 s1 s)
  | CallExternal a t0 s0 => snd (updateAndApplyByExternalTextEditAction a t0 s0 s)
  | CallUndo t => snd (undo t s)
  | CallRedo t => snd (redo t s)
  end.

Definition run (calls : list Call) (s : TextEditActionStack Ident)
  : TextEditActionStack Ident :=
  fold_left (fun s c => call c s) calls s.

(** The identities on the records handed to
    [updateAndApplyByExternalTextEditAction] in a sequence of calls. *)
Fixpoint externalIdentities (calls : list Call) : list Ident :=
  match calls with
  | [] => []
  | CallExternal a _ _ :: rest => editorIdentify a :: externalIdentities rest
  | _ :: rest => externalIdentities rest
  end.

(** A stack is reachable when calls on a new stack produce it. *)
Definition reachable (s : TextEditActionStack Ident) : Prop :=
  exists id calls, s = run calls (constructor id).

(** Every stored record carries the identity of the stack that stores it. *)
Definition storesOwnIdentity (s : TextEditActionStack Ident) : Prop :=
  Forall (fun a => editorIdentify a = this_editorIdentify s)
         (undoActions s ++ redoActions s).

(** The external record is appended as received and the redo history is
    kept. *)
Definition appendedVerbatim (a : TextEditAction Ident)
    (before after : TextEditActionStack Ident) : Prop :=
  undoActions after = undoActions before ++ [a]
  /\ redoActions after = redoActions before.

(** The state after the candidate [a] is pushed as a new top entry: the
    entries below are kept and the redo history is emptied. *)
Definition pushedAsIs (a : TextEditAction Ident) (s : TextEditActionStack Ident)
  : TextEditActionStack Ident :=
  newStackState (this_editorIdentify s) (undoActions s ++ [a]) [] (dispatched s).

(** The position and kind relations under which the merge policy folds the
    sole change [cur] of a candidate into the last change [lst] of the top
    record. *)
Definition folds (lst cur : TextChange) : bool :=
  negb (newlinesOnly (text cur)) && negb (newlinesOnly (text lst))
  && ((ChangeType_eqb (changeType lst) added
       && ChangeType_eqb (changeType cur) added
       && (position cur =? position lst + jsLength (text lst))%Z)
      || (ChangeType_eqb (changeType lst) removed
          && ChangeType_eqb (changeType cur) removed
          && ((position cur =? position lst)%Z
              || (position cur =? position lst - jsLength (text cur))%Z))).

(** The change that replaces the last change [lst] of the top record when
    the sole change [cur] of the candidate folds into it: an insertion run
    grows at its end, a forward delete grows at its end, a backspace grows at
    its front. *)
Definition combinedChange (lst cur : TextChange) : TextChange :=
  match changeType lst with
  | added => newTextChange (position lst) added (text lst ++ text cur)
  | removed =>
      if (position cur =? position lst)%Z
      then newTextChange (position lst) removed (text lst ++ text cur)
      else newTextChange (position cur) removed (text cur ++ text lst)
  end.

(** The identities a stack that belongs to [id] may hold after it was handed
    external records with the identities [ext]: its own on every record to
    redo, its own or one of [ext] on every record to undo. *)
Definition ownOrExternal (id : Ident) (ext : list Ident)
    (s : TextEditActionStack Ident) : Prop :=
  this_editorIdentify s = id
  /\ Forall (fun a => editorIdentify a = id) (redoActions s)
  /\ Forall (fun a => editorIdentify a = id \/ In (editorIdentify a) ext)
            (undoActions s).

End Calls.

(** [Number.isSafeInteger(n)] for an integer [n]: the integers that doubles
    hold without a gap. *)
Definition isSafeInteger (n : Z) : bool :=
  ((- (2 ^ 53 - 1) <=? n) && (n <=? 2 ^ 53 - 1))%Z.

(** The numbers of the test
    [currentTextChange.position === lastTextChange.position +
    lastTextChange.text.length] are safe integers: the sum of the source is
    the sum of [Z]. *)
Definition exactSum (lst cur : TextChange) : bool :=
  isSafeInteger (position lst) && isSafeInteger (position cur)
  && isSafeInteger (position lst + jsLength (text lst)).

(** The numbers of the test
    [currentTextChange.position === lastTextChange.position -
    currentTextChange.text.length] are safe integers: the difference of the
    source is the difference of [Z]. *)
Definition exactDifference (lst cur : TextChange) : bool :=
  isSafeInteger (position lst) && isSafeInteger (position cur)
  && isSafeInteger (position lst - jsLength (text cur)).

(** The ways step 2 of the policy ends without a fold: a text that is a run
    of line feeds, two kinds, two insertions of which the second does not
    start where the first ends, or two removals that neither share their
    offset nor follow each other backwards. *)
Definition keptApart (lst cur : TextChange) : Prop :=
  newlinesOnly (text cur) = true
  \/ newlinesOnly (text lst) = true
  \/ changeType lst <> changeType cur
  \/ (changeType lst = added /\ changeType cur = added
      /\ position cur <> (position lst + jsLength (text lst))%Z
      /\ exactSum lst cur = true)
  \/ (changeType lst = removed /\ changeType cur = removed
      /\ position cur <> position lst
      /\ position cur <> (position lst - jsLength (text cur))%Z
      /\ exactDifference lst cur = true).

(* ------------------------------------------------------------------ *)
(** ** Collaborators for the examples

    An identity compared by name, and a small diff engine and cursor patch
    honouring the contracts the stack relies on.  The stack itself is
    verified for every implementation; these serve the closed examples. *)

Module Sample.

Record NamedIdentify := newNamedIdentify { name : string }.

#[export] Instance NamedIdentify_equals : EditorIdentify NamedIdentify :=
  fun a b => String.eqb (name a) (name b).

Definition applyChange (t : jsString) (c : TextChange) : jsString :=
  let p := Z.to_nat (position c) in
  match changeType c with
  | added => firstn p t ++ text c ++ skipn p t
  | removed => firstn p t ++ skipn (p + length (text c)) t
  end.

Definition reverseChange (c : TextChange) : TextChange :=
  newTextChange (position c)
                (match changeType c with added => removed | removed => added end)
                (text c).

Fixpoint commonPrefix (a b : jsString) : nat :=
  match a, b with
  | x :: a', y :: b' => if N.eqb x y then S (commonPrefix a' b') else 0
  | _, _ => 0
  end.

Definition diffTexts (old new : jsString) : list TextChange :=
  let p := commonPrefix old new in
  let old' := skipn p old in
  let new' := skipn p new in
  let q := commonPrefix (rev old') (rev new') in
  let gone := firstn (length old' - q) old' in
  let come := firstn (length new' - q) new' in
  (match gone with
   | [] => []
   | _ => [newTextChange (Z.of_nat p) removed gone]
   end)
  ++ (match come with
      | [] => []
      | _ => [newTextChange (Z.of_nat p) added come]
      end).

#[export] Instance textDiffPatch : TextDiffPatch.Engine := {|
  TextDiffPatch.diff := diffTexts;
  TextDiffPatch.apply := fun t cs => fold_left applyChange cs t;
  TextDiffPatch.reverse := fun cs => rev (map reverseChange cs)
|}.

Definition moveOffset (c : TextChange) (i : Z) : Z :=
  if (i <? position c)%Z then i
  else match changeType c with
       | added => (i + jsLength (text c))%Z
       | removed => Z.max (position c) (i - jsLength (text c))
       end.

#[export] Instance cursorPatch : CursorPatch.Engine := {|
  CursorPatch.apply := fun sel cs =>
    fold_left (fun s c => newTextSelection (moveOffset c (start s))
                                           (moveOffset c (end_ s)))
              cs sel
|}.

Definition editorA := newNamedIdentify "A".
Definition editorB := newNamedIdentify "B".

(** A collapsed caret at offset [i]. *)
Definition caret (i : Z) : TextSelection := newTextSelection i i.

(** Typing the text [t] at offset [i] in editor [id]. *)
Definition typed (id : NamedIdentify) (i : Z) (t : string)
  : TextEditAction NamedIdentify :=
  newTextEditAction id (caret i) (caret (i + jsLength (js t)))
                    [newTextChange i added (js t)].

(** Removing the text [t] at offset [i] in editor [id], the caret ending
    at [i]. *)
Definition erased (id : NamedIdentify) (from : Z) (i : Z) (t : string)
  : TextEditAction NamedIdentify :=
  newTextEditAction id (caret from) (caret i)
                    [newTextChange i removed (js t)].

(** Editor B types [a]; editor A types [x] further on and takes it back.
    The stack of editor A then holds B's record to undo and its own to
    redo. *)
Definition afterUndo : TextEditActionStack NamedIdentify :=
  run [CallExternal (typed editorB 0 "a") (js "") (caret 0);
       CallUpdateByTextChanges [newTextChange 5 added (js "x")] (caret 5) (caret 6);
       CallUndo (js "a    x")]
      (constructor editorA).

(** Editor B then types [b] right after its [a]; the record reaches the
    stack of editor A as an external edit. *)
Definition externalB : TextEditAction NamedIdentify := typed editorB 1 "b".

Definition afterExternal : TextEditActionStack NamedIdentify :=
  snd (updateAndApplyByExternalTextEditAction externalB (js "a    x") (caret 1)
                                              afterUndo).

(** The stack of editor A after one external record of editor B. *)
Definition afterForeign : TextEditActionStack NamedIdentify :=
  run [CallExternal (typed editorB 0 "a") (js "") (caret 0)] (constructor editorA).

End Sample.

(* ------------------------------------------------------------------ *)
(** ** The identity classes of the repository *)

(** [src/abstracteditoridentify.js]: the base class has no field, and its
    [equals] returns [false] whatever it is given. *)
Module AbstractEditorIdentify.

Inductive t := new.

#[export] Instance equals_false : EditorIdentify t := fun _ _ => false.

End AbstractEditorIdentify.

(** [test/implements/editoridentify.js]: an identity with a [name], which the
    test gives as a string.  Its [equals(other)] is [this.name === other]:
    the name is compared with whatever is passed, and the stack passes the
    identity object of the top record. *)
Module TestEditorIdentify.

Record t := new { name : string }.

(** What [equals] may be given: a string or an identity object. *)
Inductive Operand :=
| StringValue (s : string)
| ObjectValue (o : t).

(** [name === other] for a string [name]: operands of different types are
    not strictly equal. *)
Definition strictEqualsString (name : string) (other : Operand) : bool :=
  match other with
  | StringValue s => String.eqb name s
  | ObjectValue _ => false
  end.

(** [equals(other)] *)
Definition equalsOperand (this : t) (other : Operand) : bool :=
  strictEqualsString (name this) other.

(** [equals] as the stack calls it, on the identity of a record. *)
#[export] Instance equals_name_to_object : EditorIdentify t :=
  fun this other => equalsOperand this (ObjectValue other).

End TestEditorIdentify.

(* ------------------------------------------------------------------ *)
(** ** Runs that stop at a throw, and runs of keys *)

Section Runs.

Context {Ident : Type} {identify : EditorIdentify Ident}.
Context {textDiffPatch : TextDiffPatch.Engine} {cursorPatch : CursorPatch.Engine}.

(** The record [undo] and [redo] build from the one they pop:
    [new TextEditAction(this.editorIdentify, a.selectionBefore,
    a.selectionAfter, a.textChanges)]. *)
Definition repacked (id : Ident) (a : TextEditAction Ident) : TextEditAction Ident :=
  newTextEditAction id (selectionBefore a) (selectionAfter a) (textChanges a).

Definition isNormal {A : Type} (c : Completion A) : bool :=
  match c with
  | Normal _ => true
  | Throw _ => false
  end.

(** Whether a call returns rather than throws. *)
Definition callReturns (c : @Call Ident) (s : TextEditActionStack Ident) : bool :=
  match c with
  | CallClear => isNormal (fst (clear s))
  | CallUpdate t0 t1 s0 s1 => isNormal (fst (update t0 t1 s0 s1 s))
  | CallUpdateByTextChanges tc s0 s1 => isNormal (fst (updateByTextChanges tc s0 s1 s))
  | CallExternal a t0 s0 =>
      isNormal (fst (updateAndApplyByExternalTextEditAction a t0 s0 s))
  | CallUndo t => isNormal (fst (undo t s))
  | CallRedo t => isNormal (fst (redo t s))
  end.

(** A sequence of calls by a caller that does not catch: the first throw ends
    it. *)
Fixpoint runChecked (calls : list (@Call Ident)) (s : TextEditActionStack Ident)
  : option (TextEditActionStack Ident) :=
  match calls with
  | [] => Some s
  | c :: rest => if callReturns c s then runChecked rest (call c s) else None
  end.

(** The change sequence a call hands to the stack has an entry. *)
Definition bringsChanges (c : @Call Ident) : Prop :=
  match c with
  | CallUpdate t0 t1 _ _ => TextDiffPatch.diff t0 t1 <> []
  | CallUpdateByTextChanges tc _ _ => tc <> []
  | CallExternal a _ _ => textChanges a <> []
  | CallClear | CallUndo _ | CallRedo _ => True
  end.

(** Every record of the two histories has a change. *)
Definition recordsHaveChanges (s : TextEditActionStack Ident) : Prop :=
  Forall (fun a => textChanges a <> []) (undoActions s ++ redoActions s).

(** When [pushIntoUndoStack] throws: the candidate reaches step 2 of the
    policy and has no change to take, or it has one that is not a run of line
    feeds and the top record has no change to compare it with. *)
Definition policyThrows (a : TextEditAction Ident) (s : TextEditActionStack Ident)
  : Prop :=
  exists top,
    lastItem (undoActions s) = Some top
    /\ start (selectionAfter a) = end_ (selectionAfter a)
    /\ equals (editorIdentify a) (editorIdentify top) = true
    /\ (textChanges a = []
        \/ exists cur, textChanges a = [cur]
                       /\ newlinesOnly (text cur) = false
                       /\ textChanges top = []).

(** The keys [cs] typed one by one from offset [p], the caret following. *)
Fixpoint typedKeys (p : Z) (cs : list codeUnit) : list (@Call Ident) :=
  match cs with
  | [] => []
  | c :: rest =>
      CallUpdateByTextChanges [newTextChange p added [c]]
                              (newTextSelection p p)
                              (newTextSelection (p + 1) (p + 1))
      :: typedKeys (p + 1) rest
  end.

(** Backspace pressed once for each of [cs], the caret starting at [p]: each
    press removes the unit before the caret. *)
Fixpoint backspaceKeys (p : Z) (cs : list codeUnit) : list (@Call Ident) :=
  match cs with
  | [] => []
  | c :: rest =>
      CallUpdateByTextChanges [newTextChange (p - 1) removed [c]]
                              (newTextSelection p p)
                              (newTextSelection (p - 1) (p - 1))
      :: backspaceKeys (p - 1) rest
  end.

(** Delete pressed once for each of [cs] with the caret at [p]: each press
    removes the unit after the caret. *)
Fixpoint deleteKeys (p : Z) (cs : list codeUnit) : list (@Call Ident) :=
  match cs with
  | [] => []
  | c :: rest =>
      CallUpdateByTextChanges [newTextChange p removed [c]]
                              (newTextSelection p p)
                              (newTextSelection p p)
      :: deleteKeys p rest
  end.

(** Every notification is an [actionCreate] whose record carries [id]. *)
Definition notifiesAs (id : Ident) (s : TextEditActionStack Ident) : Prop :=
  Forall (fun e => eventName e = "actionCreate"%string
                   /\ editorIdentify (textEditAction (payload e)) = id)
         (dispatched s).

End Runs.

(* ------------------------------------------------------------------ *)
(** ** Arrays and strings *)

Unset Implicit Arguments.

Section ArrayFacts.

Context {A : Type}.

Lemma arrayLength_snoc (l : list A) (x : A) :
  arrayLength (l ++ [x]) = (arrayLength l + 1)%Z.
Proof. unfold arrayLength. rewrite length_app. simpl. lia. Qed.

Lemma arrayLength_nonneg (l : list A) : (0 <= arrayLength l)%Z.
Proof. unfold arrayLength. lia. Qed.

Lemma arrayLength_snoc_eqb (l : list A) (x : A) :
  (arrayLength (l ++ [x]) =? 0)%Z = false.
Proof. rewrite arrayLength_snoc. pose proof (arrayLength_nonneg l). lia. Qed.

Lemma arrayLength_snoc_ltb (l : list A) (x : A) :
  (0 <? arrayLength (l ++ [x]))%Z = true.
Proof. rewrite arrayLength_snoc. pose proof (arrayLength_nonneg l). lia. Qed.

Lemma item_last (l : list A) (x : A) :
  item (l ++ [x]) (arrayLength (l ++ [x]) - 1) = Some x.
Proof.
  rewrite arrayLength_snoc. unfold item, arrayLength.
  replace (Z.of_nat (length l) + 1 - 1)%Z with (Z.of_nat (length l)) by lia.
  destruct (Z.ltb_spec (Z.of_nat (length l)) 0) as [Hneg | _]; [lia |].
  rewrite Nat2Z.id, nth_error_app2 by lia.
  now rewrite Nat.sub_diag.
Qed.

Lemma lastItem_snoc (l : list A) (x : A) : lastItem (l ++ [x]) = Some x.
Proof. apply item_last. Qed.

Lemma lastItem_nil : lastItem (@nil A) = None.
Proof. reflexivity. Qed.

Lemma slice0_snoc (l : list A) (x : A) :
  slice0 (l ++ [x]) (arrayLength (l ++ [x]) - 1) = l.
Proof.
  rewrite arrayLength_snoc. unfold slice0, arrayLength.
  replace (Z.of_nat (length l) + 1 - 1)%Z with (Z.of_nat (length l)) by lia.
  rewrite Nat2Z.id, firstn_app, Nat.sub_diag, firstn_all. simpl.
  apply app_nil_r.
Qed.

Lemma item_head (x : A) (l : list A) : item (x :: l) 0 = Some x.
Proof. reflexivity. Qed.

(** An array is empty or has a last element. *)
Lemma array_cases (l : list A) : l = [] \/ exists init x, l = init ++ [x].
Proof.
  destruct l as [| y l']; [now left | right].
  destruct (exists_last (l := y :: l')) as (init & x & E); [discriminate |].
  now exists init, x.
Qed.

Lemma lastItem_Some (l : list A) (x : A) :
  lastItem l = Some x -> exists init, l = init ++ [x].
Proof.
  destruct (array_cases l) as [-> | (init & y & ->)].
  - discriminate.
  - rewrite lastItem_snoc. intros [= ->]. now exists init.
Qed.

End ArrayFacts.

(** The regular expression holds exactly of the non-empty runs of line
    feeds. *)
Lemma newlinesOnly_spec (s : jsString) :
  newlinesOnly s = true <-> s <> [] /\ Forall (fun c => c = LF) s.
Proof.
  destruct s as [| c s']; simpl.
  - split; [discriminate | intros [H _]; now elim H].
  - rewrite andb_true_iff, forallb_forall. split.
    + intros [Hc Hs]. split; [discriminate |].
      constructor.
      * symmetry. now apply N.eqb_eq.
      * apply Forall_forall. intros x Hx. symmetry. apply N.eqb_eq. now apply Hs.
    + intros [_ H]. inversion H as [| ? ? Hc Hs]; subst. split.
      * reflexivity.
      * intros x Hx. rewrite Forall_forall in Hs. now rewrite (Hs x Hx).
Qed.

(* ------------------------------------------------------------------ *)
(** ** The merge policy *)

Section Policy.

Context {Ident : Type} {identify : EditorIdentify Ident}.
Context {textDiffPatch : TextDiffPatch.Engine} {cursorPatch : CursorPatch.Engine}.

Local Abbreviation Action := (TextEditAction Ident).
Local Abbreviation Stack := (TextEditActionStack Ident).

Local Open Scope Z_scope.

Lemma action_eta (a : Action) :
  newTextEditAction (editorIdentify a) (selectionBefore a) (selectionAfter a)
                    (textChanges a) = a.
Proof. now destruct a. Qed.

(** Rule 1 of the policy: any of the four tests sends the candidate to the
    top of the undo history as it is. *)
Lemma pushIntoUndoStack_asIs (a : Action) (s : Stack) :
  undoActions s = []
  \/ 1 < arrayLength (textChanges a)
  \/ start (selectionAfter a) <> end_ (selectionAfter a)
  \/ (exists top, lastItem (undoActions s) = Some top
                  /\ equals (editorIdentify a) (editorIdentify top) = false) ->
  pushIntoUndoStack a s = (Normal tt, pushedAsIs a s).
Proof.
  intros H. unfold pushIntoUndoStack, pushedAsIs, bind, this. cbn.
  rewrite action_eta.
  destruct (Z.eqb_spec (arrayLength (undoActions s)) 0) as [E0 | N0]; [reflexivity |].
  destruct (Z.ltb_spec 1 (arrayLength (textChanges a))) as [L1 | G1]; [reflexivity |].
  destruct (Z.eqb_spec (start (selectionAfter a)) (end_ (selectionAfter a)))
    as [Ecol | Ncol]; [| reflexivity].
  cbn.
  destruct H as [Hnil | [Hlen | [Hsel | (top & Htop & Heq)]]].
  - rewrite Hnil in N0. now elim N0.
  - lia.
  - now elim Hsel.
  - pose proof (arrayLength_nonneg (undoActions s)).
    destruct (Z.ltb_spec 0 (arrayLength (undoActions s))) as [_ | Hle]; [| lia].
    unfold lastItem in Htop. rewrite Htop. cbn. rewrite Heq. reflexivity.
Qed.

(** [updateByTextChanges] step by step: build the candidate, dispatch it, run
    the policy, return the candidate. *)
Lemma updateByTextChanges_eq (tc : list TextChange) (ls sel : TextSelection)
    (s : Stack) :
  updateByTextChanges tc ls sel s
  = let a := newTextEditAction (this_editorIdentify s) ls sel tc in
    let announced :=
      newStackState (this_editorIdentify s) (undoActions s) (redoActions s)
        (dispatched s
         ++ [newDispatched "actionCreate" (newActionCreate update_ a)
                           (undoActions s) (redoActions s)]) in
    match pushIntoUndoStack a announced with
    | (Normal _, s') => (Normal a, s')
    | (Throw e, s') => (Throw e, s')
    end.
Proof.
  unfold updateByTextChanges, bind, this, dispatch. cbn -[pushIntoUndoStack].
  match goal with
  | |- context [pushIntoUndoStack ?a ?s1] =>
      destruct (pushIntoUndoStack a s1) as [[[] | e] s']
  end; reflexivity.
Qed.

Ltac pushed_above := cbn; rewrite <- ?app_assoc; reflexivity.

(** Step 2 of the policy on a simple candidate: a single change, a collapsed
    caret, the identity of the top record.  When the changes fold, the top
    entry is replaced by the combined record. *)
Lemma pushIntoUndoStack_fold (id idT idC : Ident) (init redo : list Action)
    (d : list (Dispatched Ident)) (sbT saT sb sa : TextSelection)
    (initc : list TextChange) (lst cur : TextChange) :
  start sa = end_ sa ->
  equals idC idT = true ->
  folds lst cur = true ->
  pushIntoUndoStack
    (newTextEditAction idC sb sa [cur])
    (newStackState id (init ++ [newTextEditAction idT sbT saT (initc ++ [lst])]) redo d)
  = (Normal tt,
     newStackState id
       (init ++ [newTextEditAction idC sbT sa (initc ++ [combinedChange lst cur])])
       [] d).
Proof.
  intros Hcol Hid Hfold.
  unfold pushIntoUndoStack, bind, this. cbn.
  rewrite arrayLength_snoc_eqb, arrayLength_snoc_ltb, item_last, Hcol, Z.eqb_refl.
  cbn. rewrite Hid. cbn. rewrite item_last, slice0_snoc.
  unfold folds in Hfold. unfold combinedChange.
  destruct (newlinesOnly (text cur)) eqn:Ncur; [discriminate |].
  destruct (newlinesOnly (text lst)) eqn:Nlst; [discriminate |].
  cbn in Hfold |- *. rewrite ?Nlst.
  destruct (changeType lst), (changeType cur); cbn in Hfold |- *;
    try discriminate.
  - rewrite orb_false_r in Hfold. rewrite Hfold. cbn.
    now rewrite removelast_last.
  - destruct (position cur =? position lst); cbn in Hfold |- *.
    + now rewrite removelast_last.
    + rewrite Hfold. cbn. now rewrite removelast_last.
Qed.

(** When they do not fold, the candidate becomes a new top entry above the
    previous one. *)
Lemma pushIntoUndoStack_nofold (id idT idC : Ident) (init redo : list Action)
    (d : list (Dispatched Ident)) (sbT saT sb sa : TextSelection)
    (initc : list TextChange) (lst cur : TextChange) :
  start sa = end_ sa ->
  equals idC idT = true ->
  folds lst cur = false ->
  pushIntoUndoStack
    (newTextEditAction idC sb sa [cur])
    (newStackState id (init ++ [newTextEditAction idT sbT saT (initc ++ [lst])]) redo d)
  = (Normal tt,
     newStackState id
       (init ++ [newTextEditAction idT sbT saT (initc ++ [lst]);
                 newTextEditAction idC sb sa [cur]])
       [] d).
Proof.
  intros Hcol Hid Hfold.
  unfold pushIntoUndoStack, bind, this. cbn.
  rewrite arrayLength_snoc_eqb, arrayLength_snoc_ltb, item_last, Hcol, Z.eqb_refl.
  cbn. rewrite Hid. cbn. rewrite item_last.
  unfold folds in Hfold.
  destruct (newlinesOnly (text cur)) eqn:Ncur; [pushed_above |].
  cbn. destruct (newlinesOnly (text lst)) eqn:Nlst; [pushed_above |].
  cbn in Hfold |- *.
  destruct (changeType lst), (changeType cur); cbn in Hfold |- *;
    try pushed_above.
  - rewrite orb_false_r in Hfold. rewrite Hfold. pushed_above.
  - apply orb_false_iff in Hfold as [-> ->]. pushed_above.
Qed.

(** Rewrites a push onto a history of one entry with one change by the fold
    equation, leaving its three premises. *)
Ltac fold_into_sole_entry :=
  match goal with
  | |- context [pushIntoUndoStack
                  (newTextEditAction ?idC ?sb ?sa [?cur])
                  (newStackState ?id [newTextEditAction ?idT ?sbT ?saT [?lst]]
                                 ?redo ?d)] =>
      let F := fresh "F" in
      pose proof (@pushIntoUndoStack_fold id idT idC [] redo d sbT saT sb sa
                                          [] lst cur) as F;
      cbn [app] in F; rewrite F; clear F
  end.

(** [folds] spelled out: neither text is a run of line feeds, and the changes
    are two insertions of which the second starts where the first ends, or
    two removals at one offset, or two removals of which the second ends
    where the first starts. *)
Lemma folds_cases (lst cur : TextChange) :
  folds lst cur = true <->
  newlinesOnly (text cur) = false /\ newlinesOnly (text lst) = false
  /\ ((changeType lst = added /\ changeType cur = added
       /\ position cur = position lst + jsLength (text lst))
      \/ (changeType lst = removed /\ changeType cur = removed
          /\ (position cur = position lst
              \/ position cur = position lst - jsLength (text cur)))).
Proof.
  unfold folds.
  destruct (newlinesOnly (text cur)), (newlinesOnly (text lst)),
    (changeType lst), (changeType cur); cbn;
    rewrite ?orb_false_r, ?orb_true_iff, ?Z.eqb_eq;
    intuition (discriminate || auto).
Qed.

(** Typing [u] where the sole insertion [t] of the sole entry ends extends
    that entry. *)
Lemma typing_extends_sole_entry (id : Ident) (sb sa0 ls : TextSelection) (e : Z)
    (redo : list Action) (d : list (Dispatched Ident))
    (p : Z) (t : jsString) (q : Z) (u : jsString) :
  equals id id = true ->
  newlinesOnly t = false ->
  newlinesOnly u = false ->
  q = p + jsLength t ->
  exists d',
    call (CallUpdateByTextChanges [newTextChange q added u] ls (newTextSelection e e))
         (newStackState id [newTextEditAction id sb sa0 [newTextChange p added t]]
                        redo d)
    = newStackState id
        [newTextEditAction id sb (newTextSelection e e)
                           [newTextChange p added (t ++ u)]]
        [] d'.
Proof.
  intros Hrefl Nt Nu Hq. eexists. unfold call.
  rewrite updateByTextChanges_eq. cbn -[pushIntoUndoStack].
  fold_into_sole_entry; [reflexivity | reflexivity | assumption |].
  apply folds_cases. cbn. auto 10.
Qed.

(** C5. A candidate that meets one of the four tests of rule 1 (empty undo
    history, more than one change, a selection after the edit that is not
    collapsed, or an identity that does not equal the identity of the top
    record) is appended as the new top entry with its fields as they are:
    the call returns, the entries below are kept, the redo history is empty
    afterwards, and nothing else of the stack changes. *)
Theorem pushIntoUndoStack_rule1_appends (a : Action) (s : Stack) :
  undoActions s = []
  \/ 1 < arrayLength (textChanges a)
  \/ start (selectionAfter a) <> end_ (selectionAfter a)
  \/ (exists top, lastItem (undoActions s) = Some top
                  /\ equals (editorIdentify a) (editorIdentify top) = false) ->
  fst (pushIntoUndoStack a s) = Normal tt
  /\ undoActions (snd (pushIntoUndoStack a s)) = undoActions s ++ [a]
  /\ lastItem (undoActions (snd (pushIntoUndoStack a s))) = Some a
  /\ redoActions (snd (pushIntoUndoStack a s)) = []
  /\ this_editorIdentify (snd (pushIntoUndoStack a s)) = this_editorIdentify s
  /\ dispatched (snd (pushIntoUndoStack a s)) = dispatched s.
Proof.
  intros H. rewrite (pushIntoUndoStack_asIs a s H). cbn.
  rewrite lastItem_snoc. repeat split.
Qed.

(** C6. A simple candidate (one change, collapsed caret after the edit, the
    identity of the top record, no text that is a run of line feeds) whose
    change and the last change of the top record are both insertions folds
    exactly when it starts where the earlier insertion ends.  The folded top
    entry keeps the earlier changes, ends with the insertion of both texts at
    the earlier position, takes its selection before from the previous top
    and its selection after from the candidate.  In every other position the
    candidate is appended above the previous top (the positions being safe
    integers, so that the sum of the source is exact).  In particular, typing a,
    b, c one after the other with a caret on one identity leaves a single
    entry that inserts abc. *)
Theorem added_changes_fold_when_contiguous :
  (forall (id idT idC : Ident) (init redo : list Action)
          (d : list (Dispatched Ident)) (sbT saT sb sa : TextSelection)
          (initc : list TextChange) (lst cur : TextChange),
      start sa = end_ sa ->
      equals idC idT = true ->
      newlinesOnly (text lst) = false ->
      newlinesOnly (text cur) = false ->
      changeType lst = added ->
      changeType cur = added ->
      let top := newTextEditAction idT sbT saT (initc ++ [lst]) in
      let candidate := newTextEditAction idC sb sa [cur] in
      let s := newStackState id (init ++ [top]) redo d in
      (position cur = position lst + jsLength (text lst) ->
       pushIntoUndoStack candidate s
       = (Normal tt,
          newStackState id
            (init ++ [newTextEditAction idC sbT sa
                        (initc ++ [newTextChange (position lst) added
                                                 (text lst ++ text cur)])])
            [] d))
      /\ (position cur <> position lst + jsLength (text lst) ->
          exactSum lst cur = true ->
          pushIntoUndoStack candidate s
          = (Normal tt, newStackState id (init ++ [top; candidate]) [] d)))
  /\ (forall (id : Ident) (p : Z),
         equals id id = true ->
         undoActions
           (run [CallUpdateByTextChanges [newTextChange p added (js "a")]
                                         (newTextSelection p p)
                                         (newTextSelection (p + 1) (p + 1));
                 CallUpdateByTextChanges [newTextChange (p + 1) added (js "b")]
                                         (newTextSelection (p + 1) (p + 1))
                                         (newTextSelection (p + 2) (p + 2));
                 CallUpdateByTextChanges [newTextChange (p + 2) added (js "c")]
                                         (newTextSelection (p + 2) (p + 2))
                                         (newTextSelection (p + 3) (p + 3))]
                (constructor id))
         = [newTextEditAction id (newTextSelection p p)
                              (newTextSelection (p + 3) (p + 3))
                              [newTextChange p added (js "abc")]]).
Proof.
  split.
  - intros id idT idC init redo d sbT saT sb sa initc lst cur
           Hcol Hid Nlst Ncur Alst Acur top candidate s.
    subst top candidate s. split.
    + intros Hpos.
      rewrite pushIntoUndoStack_fold; auto.
      * unfold combinedChange. now rewrite Alst.
      * apply folds_cases. auto 10.
    + intros Hpos _.
      apply pushIntoUndoStack_nofold; auto.
      destruct (folds lst cur) eqn:F; [| reflexivity].
      apply folds_cases in F as (_ & _ & [(_ & _ & E) | (R & _)]).
      * now elim Hpos.
      * congruence.
  - intros id p Hrefl. unfold run. cbn [fold_left].
    assert (exists d1,
             call (CallUpdateByTextChanges [newTextChange p added (js "a")]
                     (newTextSelection p p) (newTextSelection (p + 1) (p + 1)))
                  (constructor id)
             = newStackState id
                 [newTextEditAction id (newTextSelection p p)
                    (newTextSelection (p + 1) (p + 1))
                    [newTextChange p added (js "a")]] [] d1) as [d1 ->]
      by (eexists; reflexivity).
    destruct (typing_extends_sole_entry id (newTextSelection p p)
                (newTextSelection (p + 1) (p + 1)) (newTextSelection (p + 1) (p + 1))
                (p + 2) [] d1 p (js "a") (p + 1) (js "b") Hrefl)
      as [d2 ->]; [reflexivity | reflexivity | reflexivity |].
    destruct (typing_extends_sole_entry id (newTextSelection p p)
                (newTextSelection (p + 2) (p + 2)) (newTextSelection (p + 2) (p + 2))
                (p + 3) [] d2 p (js "a" ++ js "b") (p + 2) (js "c") Hrefl)
      as [d3 ->]; [reflexivity | reflexivity | cbn; lia |].
    reflexivity.
Qed.

(** C7. A simple candidate whose change and the last change of the top
    record are both removals folds in two cases.  At the same offset
    (forward delete) the folded change removes the earlier text followed by
    the new one at the earlier offset.  Ending where the earlier removal
    starts (backspace) it removes the new text followed by the earlier one at
    the new offset.  Either way the folded record takes its selection before
    from the previous top.  In every other position the candidate is
    appended above the previous top (the positions being safe integers, so
    that the difference of the source is exact). *)
Theorem removed_changes_fold_forward_or_backward
    (id idT idC : Ident) (init redo : list Action)
    (d : list (Dispatched Ident)) (sbT saT sb sa : TextSelection)
    (initc : list TextChange) (lst cur : TextChange) :
  start sa = end_ sa ->
  equals idC idT = true ->
  newlinesOnly (text lst) = false ->
  newlinesOnly (text cur) = false ->
  changeType lst = removed ->
  changeType cur = removed ->
  let top := newTextEditAction idT sbT saT (initc ++ [lst]) in
  let candidate := newTextEditAction idC sb sa [cur] in
  let s := newStackState id (init ++ [top]) redo d in
  (position cur = position lst ->
   pushIntoUndoStack candidate s
   = (Normal tt,
      newStackState id
        (init ++ [newTextEditAction idC sbT sa
                    (initc ++ [newTextChange (position lst) removed
                                             (text lst ++ text cur)])])
        [] d))
  /\ (position cur = position lst - jsLength (text cur) ->
      pushIntoUndoStack candidate s
      = (Normal tt,
         newStackState id
           (init ++ [newTextEditAction idC sbT sa
                       (initc ++ [newTextChange (position cur) removed
                                                (text cur ++ text lst)])])
           [] d))
  /\ (position cur <> position lst ->
      position cur <> position lst - jsLength (text cur) ->
      exactDifference lst cur = true ->
      pushIntoUndoStack candidate s
      = (Normal tt, newStackState id (init ++ [top; candidate]) [] d)).
Proof.
  intros Hcol Hid Nlst Ncur Rlst Rcur top candidate s.
  subst top candidate s. split; [| split].
  - intros Hpos.
    rewrite pushIntoUndoStack_fold; auto.
    + unfold combinedChange. rewrite Rlst.
      apply Z.eqb_eq in Hpos. now rewrite Hpos.
    + apply folds_cases. auto 10.
  - intros Hpos.
    rewrite pushIntoUndoStack_fold; auto.
    + unfold combinedChange. rewrite Rlst.
      destruct (Z.eqb_spec (position cur) (position lst)) as [Esame | _];
        [| reflexivity].
      (* both relations hold: the new text is empty *)
      assert (text cur = []) as Ecur.
      { unfold jsLength in Hpos. destruct (text cur); [reflexivity |].
        cbn [length] in Hpos. lia. }
      rewrite Ecur, app_nil_r, Esame. reflexivity.
    + apply folds_cases. auto 10.
  - intros Hfwd Hback _.
    apply pushIntoUndoStack_nofold; auto.
    destruct (folds lst cur) eqn:F; [| reflexivity].
    apply folds_cases in F as (_ & _ & [(A & _) | (_ & _ & [E | E])]).
    + congruence.
    + now elim Hfwd.
    + now elim Hback.
Qed.

(** C8. A simple candidate that reaches step 2 of the policy never folds
    when the text of its change, or of the last change of the top record, is
    a run of line feeds, whatever the kinds and positions: the previous top
    is kept and the candidate is appended above it. *)
Theorem newline_changes_never_fold
    (id idT idC : Ident) (init redo : list Action)
    (d : list (Dispatched Ident)) (sbT saT sb sa : TextSelection)
    (initc : list TextChange) (lst cur : TextChange) :
  start sa = end_ sa ->
  equals idC idT = true ->
  newlinesOnly (text lst) = true \/ newlinesOnly (text cur) = true ->
  let top := newTextEditAction idT sbT saT (initc ++ [lst]) in
  let candidate := newTextEditAction idC sb sa [cur] in
  pushIntoUndoStack candidate (newStackState id (init ++ [top]) redo d)
  = (Normal tt, newStackState id (init ++ [top; candidate]) [] d).
Proof.
  intros Hcol Hid Hnl top candidate.
  apply pushIntoUndoStack_nofold; auto.
  destruct (folds lst cur) eqn:F; [| reflexivity].
  apply folds_cases in F as (Ncur & Nlst & _).
  destruct Hnl; congruence.
Qed.

(** C10. Whenever the policy folds (contiguous insertion, forward delete or
    backspace), the change sequence of the folded record is the sequence of
    the previous top with its last entry replaced by the combined change:
    the earlier entries stay as they are and in order.  The undo history is
    as long after the fold as before the candidate was processed, and the
    entries below the top are kept. *)
Theorem fold_replaces_last_change_only
    (id idT idC : Ident) (init redo : list Action)
    (d : list (Dispatched Ident)) (sbT saT sb sa : TextSelection)
    (initc : list TextChange) (lst cur : TextChange) :
  start sa = end_ sa ->
  equals idC idT = true ->
  folds lst cur = true ->
  let top := newTextEditAction idT sbT saT (initc ++ [lst]) in
  let s := newStackState id (init ++ [top]) redo d in
  let s' := snd (pushIntoUndoStack (newTextEditAction idC sb sa [cur]) s) in
  exists folded,
    undoActions s' = init ++ [folded]
    /\ textChanges folded = initc ++ [combinedChange lst cur]
    /\ slice0 (textChanges folded) (arrayLength (textChanges folded) - 1)
       = slice0 (textChanges top) (arrayLength (textChanges top) - 1)
    /\ arrayLength (textChanges folded) = arrayLength (textChanges top)
    /\ arrayLength (undoActions s') = arrayLength (undoActions s).
Proof.
  intros Hcol Hid Hfold top s s'. subst top s s'.
  rewrite pushIntoUndoStack_fold by assumption. cbn.
  eexists. split; [reflexivity |]. cbn.
  rewrite !slice0_snoc, !arrayLength_snoc. auto.
Qed.

(** Every way [pushIntoUndoStack] can end.  It throws, before it has changed
    anything, only on a change sequence without entries; otherwise it
    returns, having appended the candidate or folded it into the top. *)
Lemma pushIntoUndoStack_outcome (a : Action) (s : Stack) :
  (pushIntoUndoStack a s = (Throw TypeError, s)
   /\ (textChanges a = []
       \/ exists top, lastItem (undoActions s) = Some top /\ textChanges top = []))
  \/ pushIntoUndoStack a s = (Normal tt, pushedAsIs a s)
  \/ (exists init top initc lst cur,
        undoActions s = init ++ [top]
        /\ textChanges top = initc ++ [lst]
        /\ textChanges a = [cur]
        /\ pushIntoUndoStack a s
           = (Normal tt,
              newStackState (this_editorIdentify s)
                (init ++ [newTextEditAction (editorIdentify a) (selectionBefore top)
                            (selectionAfter a) (initc ++ [combinedChange lst cur])])
                [] (dispatched s))).
Proof.
  destruct (array_cases (undoActions s)) as [Hnil | (init & top & Hundo)].
  { right; left. apply pushIntoUndoStack_asIs. auto. }
  destruct (Z.ltb_spec 1 (arrayLength (textChanges a))) as [Hlen | Hlen].
  { right; left. apply pushIntoUndoStack_asIs. auto. }
  destruct (Z.eq_dec (start (selectionAfter a)) (end_ (selectionAfter a)))
    as [Hcol | Hcol].
  2: { right; left. apply pushIntoUndoStack_asIs. auto. }
  destruct (equals (editorIdentify a) (editorIdentify top)) eqn:Hid.
  2: { right; left. apply pushIntoUndoStack_asIs.
       right; right; right. exists top. rewrite Hundo, lastItem_snoc. auto. }
  destruct a as [idC sb sa tc], s as [id undo redo d], top as [idT sbT saT ctop].
  cbn in Hundo, Hlen, Hcol, Hid |- *. subst undo.
  destruct tc as [| cur [| cur' tc']].
  - (* no change to take *)
    left. split; [| now left].
    unfold pushIntoUndoStack, bind, this. cbn.
    rewrite arrayLength_snoc_eqb, arrayLength_snoc_ltb, item_last, Hcol, Z.eqb_refl.
    cbn. rewrite Hid. reflexivity.
  - destruct (array_cases ctop) as [-> | (initc & lst & ->)].
    + (* the top record has no change *)
      unfold pushIntoUndoStack, bind, this. cbn.
      rewrite arrayLength_snoc_eqb, arrayLength_snoc_ltb, item_last, Hcol, Z.eqb_refl.
      cbn. rewrite Hid. cbn.
      destruct (newlinesOnly (text cur)).
      * right; left. reflexivity.
      * left. split; [reflexivity |]. right. eexists.
        rewrite lastItem_snoc. split; reflexivity.
    + destruct (folds lst cur) eqn:F.
      * right; right. exists init, (newTextEditAction idT sbT saT (initc ++ [lst])),
          initc, lst, cur.
        repeat split. now apply pushIntoUndoStack_fold.
      * right; left. unfold pushedAsIs. cbn. rewrite <- app_assoc.
        now apply pushIntoUndoStack_nofold.
  - unfold arrayLength in Hlen. cbn [length] in Hlen. lia.
Qed.

(** On change sequences with entries the policy returns. *)
Lemma pushIntoUndoStack_returns (a : Action) (s : Stack) :
  textChanges a <> [] ->
  (forall top, lastItem (undoActions s) = Some top -> textChanges top <> []) ->
  fst (pushIntoUndoStack a s) = Normal tt.
Proof.
  intros Ha Htop.
  destruct (pushIntoUndoStack_outcome a s)
    as [(_ & [E | (top & Hl & E)]) | [-> | (? & ? & ? & ? & ? & _ & _ & _ & ->)]];
    try reflexivity.
  - now elim Ha.
  - now elim (Htop top Hl).
Qed.

End Policy.

(* ------------------------------------------------------------------ *)
(** ** Notification, undo and redo *)

Section Restoring.

Context {Ident : Type} {identify : EditorIdentify Ident}.
Context {textDiffPatch : TextDiffPatch.Engine} {cursorPatch : CursorPatch.Engine}.

Local Abbreviation Action := (TextEditAction Ident).
Local Abbreviation Stack := (TextEditActionStack Ident).

Local Open Scope Z_scope.

(** The policy touches the two histories only. *)
Lemma pushIntoUndoStack_frame (a : Action) (s : Stack) :
  this_editorIdentify (snd (pushIntoUndoStack a s)) = this_editorIdentify s
  /\ dispatched (snd (pushIntoUndoStack a s)) = dispatched s.
Proof.
  destruct (pushIntoUndoStack_outcome a s)
    as [(-> & _) | [-> | (? & ? & ? & ? & ? & _ & _ & _ & ->)]];
    split; reflexivity.
Qed.

(** [canUndo] holds of the stacks whose undo history has a top entry. *)
Lemma canUndo_cases (s : Stack) :
  canUndo s = true <-> exists init top, undoActions s = init ++ [top].
Proof.
  unfold canUndo. split.
  - intros H. destruct (array_cases (undoActions s)) as [E | E]; [| exact E].
    rewrite E in H. discriminate.
  - intros (init & top & ->). apply arrayLength_snoc_ltb.
Qed.

(** [undo] on a history with a top entry. *)
Lemma undo_pops (id : Ident) (init redo : list Action) (top : Action)
    (d : list (Dispatched Ident)) (text : jsString) :
  let repacked :=
    newTextEditAction id (selectionBefore top) (selectionAfter top)
                      (textChanges top) in
  let reversal := reverseAction repacked in
  undo text (newStackState id (init ++ [top]) redo d)
  = (Normal (Some (newRestored
                     (TextDiffPatch.apply text (textChanges reversal))
                     (selectionAfter reversal) reversal)),
     newStackState id init (redo ++ [repacked])
       (d ++ [newDispatched "actionCreate" (newActionCreate restore reversal)
                            init (redo ++ [repacked])])).
Proof.
  unfold undo, canUndo, bind, this. cbn.
  rewrite arrayLength_snoc_ltb. cbn.
  rewrite lastItem_snoc, removelast_last. reflexivity.
Qed.

(** [redo] on a history with a top entry. *)
Lemma redo_pops (id : Ident) (undo0 init : list Action) (top : Action)
    (d : list (Dispatched Ident)) (text : jsString) :
  let repacked :=
    newTextEditAction id (selectionBefore top) (selectionAfter top)
                      (textChanges top) in
  redo text (newStackState id undo0 (init ++ [top]) d)
  = (Normal (Some (newRestored
                     (TextDiffPatch.apply text (textChanges repacked))
                     (selectionAfter repacked) repacked)),
     newStackState id (undo0 ++ [repacked]) init
       (d ++ [newDispatched "actionCreate" (newActionCreate restore repacked)
                            (undo0 ++ [repacked]) init])).
Proof.
  unfold redo, canRedo, bind, this. cbn.
  rewrite arrayLength_snoc_ltb. cbn.
  rewrite lastItem_snoc, removelast_last. reflexivity.
Qed.

(** The policy neither reads nor writes the log of dispatched events: on
    two stacks that differ in the log only it ends the same way and leaves
    the same histories. *)
Lemma pushIntoUndoStack_ignores_dispatched (a : Action) (id : Ident)
    (undo0 redo0 : list Action) (d d' : list (Dispatched Ident)) :
  let r := pushIntoUndoStack a (newStackState id undo0 redo0 d) in
  pushIntoUndoStack a (newStackState id undo0 redo0 d')
  = (fst r,
     newStackState (this_editorIdentify (snd r)) (undoActions (snd r))
                   (redoActions (snd r)) d').
Proof.
  cbv zeta.
  destruct (array_cases undo0) as [-> | (init & top & ->)].
  { rewrite !pushIntoUndoStack_asIs by (left; reflexivity). reflexivity. }
  destruct (Z.ltb_spec 1 (arrayLength (textChanges a))) as [Hlen | Hlen].
  { rewrite !pushIntoUndoStack_asIs by auto. reflexivity. }
  destruct (Z.eq_dec (start (selectionAfter a)) (end_ (selectionAfter a)))
    as [Hcol | Hcol].
  2: { rewrite !pushIntoUndoStack_asIs by auto. reflexivity. }
  destruct (equals (editorIdentify a) (editorIdentify top)) eqn:Hid.
  2: { rewrite !pushIntoUndoStack_asIs
         by (right; right; right; exists top; cbn; rewrite lastItem_snoc; auto).
       reflexivity. }
  destruct a as [idC sb sa tc], top as [idT sbT saT ctop].
  cbn in Hlen, Hcol, Hid.
  destruct tc as [| cur [| cur' tc']].
  - unfold pushIntoUndoStack, bind, this. cbn.
    rewrite arrayLength_snoc_eqb, arrayLength_snoc_ltb, item_last, Hcol, Z.eqb_refl.
    cbn. rewrite Hid. reflexivity.
  - destruct (array_cases ctop) as [-> | (initc & lst & ->)].
    + unfold pushIntoUndoStack, bind, this. cbn.
      rewrite arrayLength_snoc_eqb, arrayLength_snoc_ltb, item_last, Hcol, Z.eqb_refl.
      cbn. rewrite Hid. cbn.
      destruct (newlinesOnly (text cur)); reflexivity.
    + destruct (folds lst cur) eqn:F.
      * rewrite !pushIntoUndoStack_fold by assumption. reflexivity.
      * rewrite !pushIntoUndoStack_nofold by assumption. reflexivity.
  - unfold arrayLength in Hlen. cbn [length] in Hlen. lia.
Qed.

(** C9. Every call of [updateByTextChanges] dispatches one [actionCreate]
    notification of type update.  Its payload is the candidate built from the
    identity of the stack, the two selections and the change sequence as
    given.  The listeners run before the policy has touched the histories:
    they find them as they were before the call.  After the dispatch the
    policy runs on that candidate: the call leaves the stack as
    [pushIntoUndoStack] leaves the stack with the notification logged, its
    two histories are what the policy makes of the histories before the call,
    and it returns exactly when the policy returns.  On change sequences with
    entries the call returns that same candidate, not the folded record.
    [update] is [updateByTextChanges] on the changes the diff engine
    reports. *)
Theorem update_dispatches_the_raw_candidate
    (tc : list TextChange) (ls sel : TextSelection) (t0 t1 : jsString) (s : Stack) :
  let candidate := newTextEditAction (this_editorIdentify s) ls sel tc in
  let announced :=
    newStackState (this_editorIdentify s) (undoActions s) (redoActions s)
      (dispatched s
       ++ [newDispatched "actionCreate" (newActionCreate update_ candidate)
                         (undoActions s) (redoActions s)]) in
  dispatched (snd (updateByTextChanges tc ls sel s))
  = dispatched s
    ++ [newDispatched "actionCreate" (newActionCreate update_ candidate)
                      (undoActions s) (redoActions s)]
  /\ (tc <> [] ->
      (forall top, lastItem (undoActions s) = Some top -> textChanges top <> []) ->
      fst (updateByTextChanges tc ls sel s) = Normal candidate)
  /\ update t0 t1 ls sel s
     = updateByTextChanges (TextDiffPatch.diff t0 t1) ls sel s
  /\ snd (updateByTextChanges tc ls sel s) = snd (pushIntoUndoStack candidate announced)
  /\ undoActions (snd (updateByTextChanges tc ls sel s))
     = undoActions (snd (pushIntoUndoStack candidate s))
  /\ redoActions (snd (updateByTextChanges tc ls sel s))
     = redoActions (snd (pushIntoUndoStack candidate s))
  /\ (fst (pushIntoUndoStack candidate s) = Normal tt ->
      fst (updateByTextChanges tc ls sel s) = Normal candidate)
  /\ (fst (pushIntoUndoStack candidate s) = Throw TypeError ->
      fst (updateByTextChanges tc ls sel s) = Throw TypeError).
Proof.
  intros candidate announced. rewrite updateByTextChanges_eq. cbv zeta.
  fold candidate. fold announced.
  pose proof (pushIntoUndoStack_frame candidate announced) as [_ Hd].
  assert (pushIntoUndoStack candidate announced
          = (fst (pushIntoUndoStack candidate s),
             newStackState (this_editorIdentify (snd (pushIntoUndoStack candidate s)))
               (undoActions (snd (pushIntoUndoStack candidate s)))
               (redoActions (snd (pushIntoUndoStack candidate s)))
               (dispatched announced))) as Hsame.
  { subst announced. destruct s as [id undo0 redo0 d].
    apply pushIntoUndoStack_ignores_dispatched. }
  split; [| split; [| split; [| split; [| split; [| split; [| split]]]]]].
  - destruct (pushIntoUndoStack candidate announced) as [[[] | e] s'];
      cbn in Hd |- *; exact Hd.
  - intros Htc Htop.
    pose proof (pushIntoUndoStack_returns candidate announced Htc Htop) as Hret.
    destruct (pushIntoUndoStack candidate announced) as [[[] | e] s'];
      [reflexivity | discriminate].
  - reflexivity.
  - destruct (pushIntoUndoStack candidate announced) as [[[] | e] s']; reflexivity.
  - rewrite Hsame.
    destruct (fst (pushIntoUndoStack candidate s)) as [[] | e]; reflexivity.
  - rewrite Hsame.
    destruct (fst (pushIntoUndoStack candidate s)) as [[] | e]; reflexivity.
  - intros Hret. rewrite Hsame, Hret. reflexivity.
  - intros Hthrow. rewrite Hsame, Hthrow. reflexivity.
Qed.

(** C3. [undo] on an empty undo history returns nothing and leaves the stack
    as it is, with no notification.  Otherwise it pops the top record, stamps
    it with the identity of the stack, pushes that record onto the redo
    history, builds the reversal (the two selections swapped, the changes
    inverted by the diff engine), applies the reversal to the given text,
    dispatches one restore notification that carries the reversal, and
    returns the new text, the selection after of the reversal and the
    reversal. *)
Theorem undo_pops_and_reverses_the_top
    (id : Ident) (init redo : list Action) (top : Action)
    (d : list (Dispatched Ident)) (text : jsString) :
  undo text (newStackState id [] redo d) = (Normal None, newStackState id [] redo d)
  /\ let repacked :=
       newTextEditAction id (selectionBefore top) (selectionAfter top)
                         (textChanges top) in
     let reversal :=
       newTextEditAction id (selectionAfter top) (selectionBefore top)
                         (TextDiffPatch.reverse (textChanges top)) in
     undo text (newStackState id (init ++ [top]) redo d)
     = (Normal (Some (newRestored
                        (TextDiffPatch.apply text
                           (TextDiffPatch.reverse (textChanges top)))
                        (selectionBefore top) reversal)),
        newStackState id init (redo ++ [repacked])
          (d ++ [newDispatched "actionCreate" (newActionCreate restore reversal)
                               init (redo ++ [repacked])]))
     /\ reversal = reverseAction repacked
     /\ newApplied (TextDiffPatch.apply text (TextDiffPatch.reverse (textChanges top)))
                   (selectionBefore top)
        = applyTextEditAction reversal text.
Proof.
  split; [reflexivity |].
  cbv zeta. rewrite undo_pops. repeat split.
Qed.

(** C4. Let the top undo record replay a text [t] into the text [s] with the
    selection [sel], and let the diff engine undo on [t] what these changes
    did.  Then [undo] of [s] returns [t], and [redo] of what [undo] returned
    gives back exactly [s] and [sel].  The redo history is again what it was,
    and the top of the undo history is the same record stamped with the
    identity of the stack. *)
Theorem redo_after_undo_restores
    (id : Ident) (init redo0 : list Action) (top : Action)
    (d : list (Dispatched Ident)) (t : jsString) :
  TextDiffPatch.apply (TextDiffPatch.apply t (textChanges top))
                      (TextDiffPatch.reverse (textChanges top)) = t ->
  let stack := newStackState id (init ++ [top]) redo0 d in
  let s := textContent (applyTextEditAction top t) in
  let sel := selection (applyTextEditAction top t) in
  canUndo stack = true
  /\ exists undone redone stack1 stack2,
      undo s stack = (Normal (Some undone), stack1)
      /\ restoredTextContent undone = t
      /\ redo (restoredTextContent undone) stack1 = (Normal (Some redone), stack2)
      /\ restoredTextContent redone = s
      /\ restoredSelection redone = sel
      /\ redoActions stack2 = redo0
      /\ undoActions stack2
         = init ++ [newTextEditAction id (selectionBefore top) (selectionAfter top)
                                      (textChanges top)].
Proof.
  intros Hcontract stack s sel. subst stack s sel. split.
  - unfold canUndo. cbn. apply arrayLength_snoc_ltb.
  - do 4 eexists. rewrite undo_pops.
    split; [reflexivity |]. cbn [restoredTextContent reverseAction textChanges].
    cbn [applyTextEditAction textContent]. rewrite Hcontract.
    split; [reflexivity |].
    rewrite redo_pops. cbn. repeat split.
Qed.

End Restoring.

(* ------------------------------------------------------------------ *)
(** ** External records and the identities in the histories *)

Section External.

Context {Ident : Type} {identify : EditorIdentify Ident}.
Context {textDiffPatch : TextDiffPatch.Engine} {cursorPatch : CursorPatch.Engine}.

Local Abbreviation Action := (TextEditAction Ident).
Local Abbreviation Stack := (TextEditActionStack Ident).

Local Open Scope Z_scope.

(** [updateAndApplyByExternalTextEditAction] is the policy, then the two
    collaborators. *)
Lemma updateAndApplyByExternalTextEditAction_eq (a : Action) (t : jsString)
    (sel : TextSelection) (s : Stack) :
  updateAndApplyByExternalTextEditAction a t sel s
  = match pushIntoUndoStack a s with
    | (Normal _, s') =>
        (Normal (newApplied (TextDiffPatch.apply t (textChanges a))
                            (CursorPatch.apply sel (textChanges a))), s')
    | (Throw e, s') => (Throw e, s')
    end.
Proof.
  unfold updateAndApplyByExternalTextEditAction, bind.
  destruct (pushIntoUndoStack a s) as [[[] | e] s']; reflexivity.
Qed.

(** After the policy the redo history is empty, unless the policy threw. *)
Lemma pushIntoUndoStack_redo (a : Action) (s : Stack) :
  fst (pushIntoUndoStack a s) = Normal tt ->
  redoActions (snd (pushIntoUndoStack a s)) = [].
Proof.
  destruct (pushIntoUndoStack_outcome a s)
    as [(-> & _) | [-> | (? & ? & ? & ? & ? & _ & _ & _ & ->)]];
    [discriminate | reflexivity | reflexivity].
Qed.

(** The policy stores the identity of the candidate. *)
Lemma pushIntoUndoStack_identities (P : Ident -> Prop) (a : Action) (s : Stack) :
  P (editorIdentify a) ->
  Forall (fun x => P (editorIdentify x)) (undoActions s) ->
  Forall (fun x => P (editorIdentify x)) (undoActions (snd (pushIntoUndoStack a s))).
Proof.
  intros Pa Ps.
  destruct (pushIntoUndoStack_outcome a s)
    as [(-> & _) | [-> | (init & top & ? & ? & ? & Hundo & _ & _ & ->)]]; cbn.
  - exact Ps.
  - apply Forall_app. split; [exact Ps | now constructor].
  - rewrite Hundo in Ps. apply Forall_app in Ps as [Pinit _].
    apply Forall_app. split; [exact Pinit | now constructor].
Qed.

Lemma pushIntoUndoStack_redo_identities (P : Action -> Prop) (a : Action) (s : Stack) :
  Forall P (redoActions s) ->
  Forall P (redoActions (snd (pushIntoUndoStack a s))).
Proof.
  intros Ps.
  destruct (pushIntoUndoStack_outcome a s)
    as [(-> & _) | [-> | (? & ? & ? & ? & ? & _ & _ & _ & ->)]]; cbn; auto.
Qed.

Lemma undo_nothing (text : jsString) (s : Stack) :
  undoActions s = [] -> undo text s = (Normal None, s).
Proof. intros H. unfold undo, canUndo, bind, this. cbn. now rewrite H. Qed.

Lemma redo_nothing (text : jsString) (s : Stack) :
  redoActions s = [] -> redo text s = (Normal None, s).
Proof. intros H. unfold redo, canRedo, bind, this. cbn. now rewrite H. Qed.

Lemma externalIdentities_app (l1 l2 : list (@Call Ident)) :
  externalIdentities (l1 ++ l2) = externalIdentities l1 ++ externalIdentities l2.
Proof.
  induction l1 as [| c l1 IH]; [reflexivity |].
  destruct c; cbn; now rewrite ?IH.
Qed.

Lemma ownOrExternal_more (id : Ident) (ext more : list Ident) (s : Stack) :
  ownOrExternal id ext s -> ownOrExternal id (ext ++ more) s.
Proof.
  intros (Hid & Hredo & Hundo). repeat split; auto.
  eapply Forall_impl; [| exact Hundo].
  intros a [H | H]; [now left | right]. apply in_or_app. now left.
Qed.

(** One call keeps the identities within the stack's own and those of the
    external records handed to it so far. *)
Lemma call_keeps_identities (id : Ident) (ext : list Ident) (c : Call) (s : Stack) :
  ownOrExternal id ext s ->
  ownOrExternal id (ext ++ externalIdentities [c]) (call c s).
Proof.
  intros Hinv.
  assert (forall (a : Action) (s0 : Stack) (ext0 : list Ident),
             ownOrExternal id ext0 s0 ->
             editorIdentify a = id \/ In (editorIdentify a) ext0 ->
             ownOrExternal id ext0 (snd (pushIntoUndoStack a s0))) as Hpush.
  { intros a s0 ext0 (Hid & Hredo & Hundo) Ha. repeat split.
    - now rewrite (proj1 (pushIntoUndoStack_frame a s0)).
    - now apply pushIntoUndoStack_redo_identities.
    - now apply (pushIntoUndoStack_identities (fun i => i = id \/ In i ext0)). }
  assert (forall (tc : list TextChange) (ls sel : TextSelection),
             ownOrExternal id ext (snd (updateByTextChanges tc ls sel s)))
    as Hupdate.
  { intros tc ls sel. rewrite updateByTextChanges_eq. cbv zeta.
    set (a := newTextEditAction _ _ _ _). set (announced := newStackState _ _ _ _).
    specialize (Hpush a announced ext).
    destruct (pushIntoUndoStack a announced) as [[[] | e] s']; cbn in Hpush |- *;
      apply Hpush; try (left; apply Hinv); exact Hinv. }
  destruct c as [| t0 t1 ls sel | tc ls sel | a t0 sel | text | text];
    cbn [call externalIdentities]; rewrite ?app_nil_r.
  - (* clear *)
    destruct Hinv as (Hid & _ & _). repeat split; auto.
  - apply Hupdate.
  - apply Hupdate.
  - (* an external record brings its identity *)
    rewrite updateAndApplyByExternalTextEditAction_eq.
    specialize (Hpush a s (ext ++ [editorIdentify a])
                      (ownOrExternal_more id ext _ s Hinv)).
    destruct (pushIntoUndoStack a s) as [[[] | e] s']; cbn in Hpush |- *;
      apply Hpush; right; apply in_or_app; right; now left.
  - (* undo stamps what it moves to the redo history *)
    destruct s as [id0 undo0 redo0 d]. destruct Hinv as (Hid & Hredo & Hundo).
    cbn in Hid, Hredo, Hundo. subst id0.
    destruct (array_cases undo0) as [-> | (init & top & ->)].
    + rewrite undo_nothing by reflexivity. repeat split; auto.
    + rewrite undo_pops. cbn. apply Forall_app in Hundo as [Hinit _].
      repeat split; auto. apply Forall_app. split; [exact Hredo |].
      now constructor.
  - (* redo stamps what it moves to the undo history *)
    destruct s as [id0 undo0 redo0 d]. destruct Hinv as (Hid & Hredo & Hundo).
    cbn in Hid, Hredo, Hundo. subst id0.
    destruct (array_cases redo0) as [-> | (init & top & ->)].
    + rewrite redo_nothing by reflexivity. repeat split; auto.
    + rewrite redo_pops. cbn. apply Forall_app in Hredo as [Hinit _].
      repeat split; auto. apply Forall_app. split; [exact Hundo |].
      constructor; [now left | constructor].
Qed.

(** C2, as the code has it.  On every stack that calls on a new stack of
    [id] produce, each record of the redo history carries [id], and each
    record of the undo history carries [id] or the identity of an external
    record handed to [updateAndApplyByExternalTextEditAction]: the policy
    stores a record under the identity it came with.  The stamp with the
    stack's own identity is put on when [undo] moves a record to the redo
    history and when [redo] moves it back. *)
Theorem histories_carry_own_or_external_identity
    (id : Ident) (calls : list Call) (init redo0 undo0 : list Action) (top : Action)
    (d : list (Dispatched Ident)) (text : jsString) :
  ownOrExternal id (externalIdentities calls) (run calls (constructor id))
  /\ lastItem (redoActions (snd (undo text (newStackState id (init ++ [top]) redo0 d))))
     = Some (newTextEditAction id (selectionBefore top) (selectionAfter top)
                               (textChanges top))
  /\ lastItem (undoActions (snd (redo text (newStackState id undo0 (init ++ [top]) d))))
     = Some (newTextEditAction id (selectionBefore top) (selectionAfter top)
                               (textChanges top)).
Proof.
  split; [| split].
  - induction calls as [| c calls IH] using rev_ind.
    + repeat split; constructor.
    + unfold run in *. rewrite fold_left_app, externalIdentities_app. cbn [fold_left].
      now apply call_keeps_identities.
  - rewrite undo_pops. cbn. apply lastItem_snoc.
  - rewrite redo_pops. cbn. apply lastItem_snoc.
Qed.

(** What is kept apart does not fold. *)
Lemma keptApart_not_folds (lst cur : TextChange) :
  keptApart lst cur -> folds lst cur = false.
Proof.
  intros H. destruct (folds lst cur) eqn:F; [| reflexivity].
  apply folds_cases in F as (Ncur & Nlst & F).
  destruct H as [H | [H | [H | [(A1 & A2 & Hpos & _) | (R1 & R2 & Hf & Hb & _)]]]].
  - congruence.
  - congruence.
  - destruct F as [(A1 & A2 & _) | (R1 & R2 & _)]; elim H; congruence.
  - destruct F as [(_ & _ & E) | (R1 & _)]; [now elim Hpos | congruence].
  - destruct F as [(A1 & _) | (_ & _ & [E | E])];
      [congruence | now elim Hf | now elim Hb].
Qed.

(** C1, as the code has it.  An external record goes through
    [pushIntoUndoStack] like a local candidate: the stack is left as the
    policy leaves it, and whenever the call returns the redo history is
    empty, not kept, and the result is the text and the selection the two
    collaborators compute.  The record is appended to the undo history as
    received, and [undo] then pops exactly that record and returns its
    reversal under the identity of the stack, whenever the policy does not
    fold: under rule 1, and at step 2 for every record that is kept apart
    from the top.  Only a record that folds is not appended: the top entry is
    replaced by the folded record, which is what [undo] then reverses. *)
Theorem external_edit_goes_through_the_policy
    (a : Action) (t : jsString) (sel : TextSelection) (s : Stack) (text : jsString)
    (id idT idC : Ident) (init redo : list Action) (d : list (Dispatched Ident))
    (sbT saT sb sa : TextSelection) (initc : list TextChange) (lst cur : TextChange) :
  let r := updateAndApplyByExternalTextEditAction a t sel s in
  let applied :=
    newApplied (TextDiffPatch.apply t (textChanges a))
               (CursorPatch.apply sel (textChanges a)) in
  snd r = snd (pushIntoUndoStack a s)
  /\ (fst (pushIntoUndoStack a s) = Normal tt ->
      fst r = Normal applied /\ redoActions (snd r) = [])
  /\ (undoActions s = []
      \/ 1 < arrayLength (textChanges a)
      \/ start (selectionAfter a) <> end_ (selectionAfter a)
      \/ (exists top, lastItem (undoActions s) = Some top
                      /\ equals (editorIdentify a) (editorIdentify top) = false) ->
      let repacked :=
        newTextEditAction (this_editorIdentify s) (selectionBefore a)
                          (selectionAfter a) (textChanges a) in
      let reversal :=
        newTextEditAction (this_editorIdentify s) (selectionAfter a)
                          (selectionBefore a)
                          (TextDiffPatch.reverse (textChanges a)) in
      r = (Normal applied, pushedAsIs a s)
      /\ undo text (snd r)
         = (Normal (Some (newRestored
                            (TextDiffPatch.apply text
                               (TextDiffPatch.reverse (textChanges a)))
                            (selectionBefore a) reversal)),
            newStackState (this_editorIdentify s) (undoActions s) [repacked]
              (dispatched s
               ++ [newDispatched "actionCreate" (newActionCreate restore reversal)
                                 (undoActions s) [repacked]])))
  /\ (start sa = end_ sa ->
      equals idC idT = true ->
      let top := newTextEditAction idT sbT saT (initc ++ [lst]) in
      let received := newTextEditAction idC sb sa [cur] in
      let r2 :=
        updateAndApplyByExternalTextEditAction received t sel
          (newStackState id (init ++ [top]) redo d) in
      let applied2 :=
        newApplied (TextDiffPatch.apply t [cur]) (CursorPatch.apply sel [cur]) in
      (keptApart lst cur ->
       let reversal :=
         newTextEditAction id sa sb (TextDiffPatch.reverse [cur]) in
       r2 = (Normal applied2, newStackState id (init ++ [top; received]) [] d)
       /\ undo text (snd r2)
          = (Normal (Some (newRestored
                             (TextDiffPatch.apply text (TextDiffPatch.reverse [cur]))
                             sb reversal)),
             newStackState id (init ++ [top]) [repacked id received]
               (d ++ [newDispatched "actionCreate" (newActionCreate restore reversal)
                                    (init ++ [top]) [repacked id received]])))
      /\ (folds lst cur = true ->
          let folded :=
            newTextEditAction idC sbT sa (initc ++ [combinedChange lst cur]) in
          let reversal :=
            newTextEditAction id sa sbT
                              (TextDiffPatch.reverse (textChanges folded)) in
          r2 = (Normal applied2, newStackState id (init ++ [folded]) [] d)
          /\ undo text (snd r2)
             = (Normal (Some (newRestored
                                (TextDiffPatch.apply text
                                   (TextDiffPatch.reverse (textChanges folded)))
                                sbT reversal)),
                newStackState id init [repacked id folded]
                  (d ++ [newDispatched "actionCreate"
                                       (newActionCreate restore reversal)
                                       init [repacked id folded]])))).
Proof.
  intros r applied. subst r applied.
  split; [| split; [| split]].
  - rewrite updateAndApplyByExternalTextEditAction_eq.
    destruct (pushIntoUndoStack a s) as [[[] | e] s']; reflexivity.
  - rewrite updateAndApplyByExternalTextEditAction_eq.
    intros Hret. pose proof (pushIntoUndoStack_redo a s Hret) as Hredo.
    destruct (pushIntoUndoStack a s) as [[[] | e] s']; [| discriminate].
    now split.
  - rewrite updateAndApplyByExternalTextEditAction_eq.
    intros Hrule. rewrite (pushIntoUndoStack_asIs a s Hrule). cbv zeta.
    split; [reflexivity |].
    unfold pushedAsIs. cbn [snd]. rewrite undo_pops. reflexivity.
  - intros Hcol Hid top received r2 applied2. subst top received r2 applied2.
    rewrite updateAndApplyByExternalTextEditAction_eq. split.
    + intros Hkept. cbv zeta.
      rewrite pushIntoUndoStack_nofold
        by (auto using keptApart_not_folds).
      split; [reflexivity |]. cbn [snd].
      change (init ++ [newTextEditAction idT sbT saT (initc ++ [lst]);
                       newTextEditAction idC sb sa [cur]])
        with (init ++ [newTextEditAction idT sbT saT (initc ++ [lst])]
                   ++ [newTextEditAction idC sb sa [cur]]).
      rewrite app_assoc, undo_pops. reflexivity.
    + intros Hfold. cbv zeta.
      rewrite pushIntoUndoStack_fold by assumption.
      split; [reflexivity |]. cbn [snd].
      rewrite undo_pops. reflexivity.
Qed.

End External.

(* ------------------------------------------------------------------ *)
(** ** The theorems at concrete edits *)

Import Sample.

Local Open Scope Z_scope.

(** Editor A types [b] on a stack whose top record came from editor B: the
    identities differ, rule 1 appends. *)
Lemma pushIntoUndoStack_rule1_appends_at_foreign_top :
  (exists top, lastItem (undoActions afterUndo) = Some top
               /\ equals (editorIdentify (typed editorA 1 "b"))
                         (editorIdentify top) = false)
  /\ undoActions (snd (pushIntoUndoStack (typed editorA 1 "b") afterUndo))
     = [typed editorB 0 "a"; typed editorA 1 "b"]
  /\ redoActions (snd (pushIntoUndoStack (typed editorA 1 "b") afterUndo)) = [].
Proof.
  assert (exists top, lastItem (undoActions afterUndo) = Some top
                      /\ equals (editorIdentify (typed editorA 1 "b"))
                                (editorIdentify top) = false) as H
    by (eexists; split; reflexivity).
  split; [exact H |].
  destruct (pushIntoUndoStack_rule1_appends (typed editorA 1 "b") afterUndo
              (or_intror (or_intror (or_intror H))))
    as (_ & Hundo & _ & Hredo & _).
  split; [exact Hundo | exact Hredo].
Defined.

(** [b] typed right after [a] extends the record of [a]; typed four places
    further on, at safe offsets, it makes a record of its own; [abc] typed
    key by key is one record. *)
Lemma added_changes_fold_when_contiguous_at_ab :
  pushIntoUndoStack (typed editorA 1 "b")
                    (newStackState editorA [typed editorA 0 "a"] [] [])
  = (Normal tt,
     newStackState editorA
       [newTextEditAction editorA (caret 0) (caret 2)
                          [newTextChange 0 added (js "ab")]] [] [])
  /\ exactSum (newTextChange 0 added (js "a")) (newTextChange 5 added (js "b")) = true
  /\ pushIntoUndoStack (typed editorA 5 "b")
                       (newStackState editorA [typed editorA 0 "a"] [] [])
     = (Normal tt,
        newStackState editorA [typed editorA 0 "a"; typed editorA 5 "b"] [] [])
  /\ undoActions
       (run [CallUpdateByTextChanges [newTextChange 0 added (js "a")]
                                     (caret 0) (caret 1);
             CallUpdateByTextChanges [newTextChange 1 added (js "b")]
                                     (caret 1) (caret 2);
             CallUpdateByTextChanges [newTextChange 2 added (js "c")]
                                     (caret 2) (caret 3)]
            (constructor editorA))
     = [newTextEditAction editorA (caret 0) (caret 3)
                          [newTextChange 0 added (js "abc")]].
Proof.
  destruct (added_changes_fold_when_contiguous (Ident := NamedIdentify))
    as (Hpolicy & Habc).
  destruct (Hpolicy
              editorA editorA editorA [] [] [] (caret 0) (caret 1) (caret 1) (caret 2)
              [] (newTextChange 0 added (js "a")) (newTextChange 1 added (js "b"))
              eq_refl eq_refl eq_refl eq_refl eq_refl eq_refl)
    as (Hfold & _).
  destruct (Hpolicy
              editorA editorA editorA [] [] [] (caret 0) (caret 1) (caret 5) (caret 6)
              [] (newTextChange 0 added (js "a")) (newTextChange 5 added (js "b"))
              eq_refl eq_refl eq_refl eq_refl eq_refl eq_refl)
    as (_ & Happend).
  split; [exact (Hfold eq_refl) |].
  split; [reflexivity |].
  split; [| exact (Habc editorA 0 eq_refl)].
  apply Happend; [discriminate | reflexivity].
Defined.

(** Backspace over [c] and then over [b] is one removal of [bc]; a second
    press of delete at one offset is one removal too; a removal six places
    further on, at safe offsets, is a record of its own. *)
Lemma removed_changes_fold_at_backspace_and_delete :
  pushIntoUndoStack (erased editorA 2 1 "b")
                    (newStackState editorA [erased editorA 3 2 "c"] [] [])
  = (Normal tt,
     newStackState editorA
       [newTextEditAction editorA (caret 3) (caret 1)
                          [newTextChange 1 removed (js "bc")]] [] [])
  /\ pushIntoUndoStack (erased editorA 2 2 "d")
                       (newStackState editorA [erased editorA 2 2 "c"] [] [])
     = (Normal tt,
        newStackState editorA
          [newTextEditAction editorA (caret 2) (caret 2)
                             [newTextChange 2 removed (js "cd")]] [] [])
  /\ exactDifference (newTextChange 2 removed (js "c"))
                     (newTextChange 8 removed (js "z")) = true
  /\ pushIntoUndoStack (erased editorA 9 8 "z")
                       (newStackState editorA [erased editorA 3 2 "c"] [] [])
     = (Normal tt,
        newStackState editorA [erased editorA 3 2 "c"; erased editorA 9 8 "z"] [] []).
Proof.
  split; [| split; [| split; [reflexivity |]]].
  - exact (proj1 (proj2
      (removed_changes_fold_forward_or_backward
         editorA editorA editorA [] [] [] (caret 3) (caret 2) (caret 2) (caret 1)
         [] (newTextChange 2 removed (js "c")) (newTextChange 1 removed (js "b"))
         eq_refl eq_refl eq_refl eq_refl eq_refl eq_refl)) eq_refl).
  - exact (proj1
      (removed_changes_fold_forward_or_backward
         editorA editorA editorA [] [] [] (caret 2) (caret 2) (caret 2) (caret 2)
         [] (newTextChange 2 removed (js "c")) (newTextChange 2 removed (js "d"))
         eq_refl eq_refl eq_refl eq_refl eq_refl eq_refl) eq_refl).
  - apply (proj2 (proj2
      (removed_changes_fold_forward_or_backward
         editorA editorA editorA [] [] [] (caret 3) (caret 2) (caret 9) (caret 8)
         [] (newTextChange 2 removed (js "c")) (newTextChange 8 removed (js "z"))
         eq_refl eq_refl eq_refl eq_refl eq_refl eq_refl)));
      [discriminate | discriminate | reflexivity].
Defined.

(** A letter typed right after a line feed starts a record of its own. *)
Lemma newline_changes_never_fold_at_line_feed :
  newlinesOnly [LF] = true
  /\ pushIntoUndoStack (typed editorA 1 "a")
       (newStackState editorA
          [newTextEditAction editorA (caret 0) (caret 1) [newTextChange 0 added [LF]]]
          [] [])
     = (Normal tt,
        newStackState editorA
          [newTextEditAction editorA (caret 0) (caret 1) [newTextChange 0 added [LF]];
           typed editorA 1 "a"] [] []).
Proof.
  split; [reflexivity |].
  exact (newline_changes_never_fold
           editorA editorA editorA [] [] [] (caret 0) (caret 1) (caret 1) (caret 2)
           [] (newTextChange 0 added [LF]) (newTextChange 1 added (js "a"))
           eq_refl eq_refl (or_introl eq_refl)).
Defined.

(** A record of two changes whose last one is extended by typing: the first
    change stays, the history keeps its length. *)
Lemma fold_replaces_last_change_only_at_two_changes :
  folds (newTextChange 4 added (js "x")) (newTextChange 5 added (js "y")) = true
  /\ exists folded,
      undoActions
        (snd (pushIntoUndoStack (typed editorA 5 "y")
                (newStackState editorA
                   [typed editorA 9 "z";
                    newTextEditAction editorA (caret 0) (caret 5)
                      [newTextChange 0 removed (js "q");
                       newTextChange 4 added (js "x")]] [] [])))
      = [typed editorA 9 "z"; folded]
      /\ textChanges folded
         = [newTextChange 0 removed (js "q"); newTextChange 4 added (js "xy")].
Proof.
  split; [reflexivity |].
  destruct (fold_replaces_last_change_only
              editorA editorA editorA [typed editorA 9 "z"] [] []
              (caret 0) (caret 5) (caret 5) (caret 6)
              [newTextChange 0 removed (js "q")]
              (newTextChange 4 added (js "x")) (newTextChange 5 added (js "y"))
              eq_refl eq_refl eq_refl)
    as (folded & Hundo & Hchanges & _).
  exists folded. split; [exact Hundo | exact Hchanges].
Defined.

(** Typing [b] after [a]: the listeners get the record of [b] alone while the
    history still holds the record of [a], the caller gets the record of
    [b], and the history holds the folded record of [ab] afterwards. *)
Lemma update_dispatches_the_raw_candidate_at_b :
  fst (updateByTextChanges [newTextChange 1 added (js "b")] (caret 1) (caret 2)
         (newStackState editorA [typed editorA 0 "a"] [typed editorA 7 "z"] []))
  = Normal (typed editorA 1 "b")
  /\ dispatched
       (snd (updateByTextChanges [newTextChange 1 added (js "b")] (caret 1) (caret 2)
               (newStackState editorA [typed editorA 0 "a"] [typed editorA 7 "z"] [])))
     = [newDispatched "actionCreate" (newActionCreate update_ (typed editorA 1 "b"))
                      [typed editorA 0 "a"] [typed editorA 7 "z"]]
  /\ undoActions
       (snd (updateByTextChanges [newTextChange 1 added (js "b")] (caret 1) (caret 2)
               (newStackState editorA [typed editorA 0 "a"] [typed editorA 7 "z"] [])))
     = [typed editorA 0 "ab"]
  /\ redoActions
       (snd (updateByTextChanges [newTextChange 1 added (js "b")] (caret 1) (caret 2)
               (newStackState editorA [typed editorA 0 "a"] [typed editorA 7 "z"] [])))
     = [].
Proof.
  destruct (update_dispatches_the_raw_candidate
              [newTextChange 1 added (js "b")] (caret 1) (caret 2) (js "a") (js "ab")
              (newStackState editorA [typed editorA 0 "a"] [typed editorA 7 "z"] []))
    as (Hdispatched & Hreturned & _ & _ & Hundo & Hredo & _).
  split; [| split; [exact Hdispatched | split; [exact Hundo | exact Hredo]]].
  apply Hreturned.
  - discriminate.
  - intros top Htop. vm_compute in Htop. injection Htop as <-. discriminate.
Defined.

(** [b] typed into [ac]: undo of [abc] gives [ac], redo of [ac] gives [abc]
    and the caret after [b]. *)
Lemma redo_after_undo_restores_at_abc :
  TextDiffPatch.apply (TextDiffPatch.apply (js "ac") (textChanges (typed editorA 1 "b")))
                      (TextDiffPatch.reverse (textChanges (typed editorA 1 "b")))
  = js "ac"
  /\ exists undone redone stack1 stack2,
      undo (js "abc") (newStackState editorA [typed editorA 1 "b"] [] [])
      = (Normal (Some undone), stack1)
      /\ restoredTextContent undone = js "ac"
      /\ redo (js "ac") stack1 = (Normal (Some redone), stack2)
      /\ restoredTextContent redone = js "abc"
      /\ restoredSelection redone = caret 2.
Proof.
  assert (TextDiffPatch.apply
            (TextDiffPatch.apply (js "ac") (textChanges (typed editorA 1 "b")))
            (TextDiffPatch.reverse (textChanges (typed editorA 1 "b")))
          = js "ac") as Hcontract by reflexivity.
  split; [exact Hcontract |].
  destruct (redo_after_undo_restores editorA [] [] (typed editorA 1 "b") [] (js "ac")
              Hcontract)
    as (_ & undone & redone & stack1 & stack2 & Hundo & Ht & Hredo & Hs & Hsel & _).
  exists undone, redone, stack1, stack2.
  rewrite Ht in Hredo.
  repeat split; [exact Hundo | exact Ht | exact Hredo | exact Hs | exact Hsel].
Defined.

(** The stack of editor A holds the record of [a] typed in editor B and has
    its own [x] to redo.  Editor B types [y] four places further on: the
    record has the identity of the top and a caret, it is kept apart from
    [a], it is appended as received and the redo history is emptied; undo
    answers with its reversal under the identity of editor A. *)
Lemma external_edit_goes_through_the_policy_at_kept_apart :
  keptApart (newTextChange 0 added (js "a")) (newTextChange 5 added (js "y"))
  /\ undoActions afterUndo = [typed editorB 0 "a"]
  /\ redoActions afterUndo = [typed editorA 5 "x"]
  /\ updateAndApplyByExternalTextEditAction (typed editorB 5 "y") (js "a    x")
                                            (caret 1) afterUndo
     = (Normal (newApplied (js "a    yx") (caret 1)),
        newStackState editorA [typed editorB 0 "a"; typed editorB 5 "y"] []
                      (dispatched afterUndo))
  /\ fst (undo (js "a    yx")
            (snd (updateAndApplyByExternalTextEditAction (typed editorB 5 "y")
                    (js "a    x") (caret 1) afterUndo)))
     = Normal (Some (newRestored (js "a    x") (caret 5)
                       (newTextEditAction editorA (caret 6) (caret 5)
                                          [newTextChange 5 removed (js "y")]))).
Proof.
  assert (keptApart (newTextChange 0 added (js "a"))
                    (newTextChange 5 added (js "y"))) as Hkept.
  { right; right; right; left. repeat split. discriminate. }
  split; [exact Hkept |]. split; [reflexivity |]. split; [reflexivity |].
  destruct (external_edit_goes_through_the_policy
              (typed editorB 5 "y") (js "a    x") (caret 1) afterUndo (js "a    yx")
              editorA editorB editorB [] (redoActions afterUndo)
              (dispatched afterUndo) (caret 0) (caret 1) (caret 5) (caret 6) []
              (newTextChange 0 added (js "a")) (newTextChange 5 added (js "y")))
    as (_ & _ & _ & Hstep2).
  destruct (Hstep2 eq_refl eq_refl) as (Happend & _).
  destruct (Happend Hkept) as (Hpushed & Hundo).
  split.
  - exact Hpushed.
  - exact (f_equal fst Hundo).
Defined.

(** C1 as stated fails.  The stack of editor A holds the record of [a] typed
    in editor B and has its own [x] to redo.  The external record of [b]
    typed next in editor B is folded into the record of [a], and the redo
    history is emptied. *)
Lemma external_edit_is_folded_and_clears_redo :
  ~ appendedVerbatim externalB afterUndo afterExternal.
Proof.
  intros [Hundo _]. vm_compute in Hundo. discriminate Hundo.
Qed.

(** The two parts of C1 fail one by one on that call, and the undo that
    follows removes [ab], not [b]. *)
Lemma external_edit_folded_in_detail :
  undoActions afterUndo = [typed editorB 0 "a"]
  /\ redoActions afterUndo = [typed editorA 5 "x"]
  /\ undoActions afterExternal
     = [newTextEditAction editorB (caret 0) (caret 2) [newTextChange 0 added (js "ab")]]
  /\ redoActions afterExternal = []
  /\ fst (undo (js "ab   x") afterExternal)
     = Normal (Some (newRestored (js "   x") (caret 0)
                       (newTextEditAction editorA (caret 2) (caret 0)
                                          [newTextChange 0 removed (js "ab")]))).
Proof. repeat split. Qed.

(** C2 as stated fails: after one external record of editor B the stack of
    editor A stores a record under the identity of editor B. *)
Lemma reachable_stack_stores_foreign_identity :
  exists s : TextEditActionStack NamedIdentify,
    reachable s /\ ~ storesOwnIdentity s.
Proof.
  exists afterForeign. split.
  - exists editorA. eexists. reflexivity.
  - intros H. unfold storesOwnIdentity in H. vm_compute in H.
    inversion H as [| ? ? Hid _]. discriminate Hid.
Qed.

(* ------------------------------------------------------------------ *)
(** ** Further properties: redo, empty histories, what a push leaves *)

Section Further.

Context {Ident : Type} {identify : EditorIdentify Ident}.
Context {textDiffPatch : TextDiffPatch.Engine} {cursorPatch : CursorPatch.Engine}.

Local Abbreviation Action := (TextEditAction Ident).
Local Abbreviation Stack := (TextEditActionStack Ident).

Local Open Scope Z_scope.

(** X1. [redo] on an empty redo history returns nothing and leaves the stack
    as it is, with no notification.  Otherwise it pops the top of the redo
    history, stamps it with the identity of the stack, pushes that record
    onto the undo history, applies its changes as they are to the given text,
    dispatches one restore notification with that record, and returns the new
    text, the selection after of the record and the record. *)
Theorem redo_pops_and_replays_the_top
    (id : Ident) (undo0 init : list Action) (top : Action)
    (d : list (Dispatched Ident)) (text : jsString) :
  redo text (newStackState id undo0 [] d) = (Normal None, newStackState id undo0 [] d)
  /\ redo text (newStackState id undo0 (init ++ [top]) d)
     = (Normal (Some (newRestored (TextDiffPatch.apply text (textChanges top))
                                  (selectionAfter top) (repacked id top))),
        newStackState id (undo0 ++ [repacked id top]) init
          (d ++ [newDispatched "actionCreate"
                               (newActionCreate restore (repacked id top))
                               (undo0 ++ [repacked id top]) init]))
  /\ newApplied (TextDiffPatch.apply text (textChanges top)) (selectionAfter top)
     = applyTextEditAction (repacked id top) text.
Proof.
  split; [reflexivity |]. split; [| reflexivity].
  rewrite redo_pops. reflexivity.
Qed.

(** X2. A new stack and a cleared stack have nothing to undo or redo: [undo]
    and [redo] return nothing and change nothing.  [clear] keeps the identity
    and dispatches nothing.  On an empty undo history every push returns with
    the candidate as the only entry, also a candidate without changes. *)
Theorem cleared_stack_is_as_new (s : Stack) (a : Action) (text : jsString) :
  let c := snd (clear s) in
  fst (clear s) = Normal tt
  /\ c = newStackState (this_editorIdentify s) [] [] (dispatched s)
  /\ canUndo c = false /\ canRedo c = false
  /\ undo text c = (Normal None, c)
  /\ redo text c = (Normal None, c)
  /\ pushIntoUndoStack a c
     = (Normal tt, newStackState (this_editorIdentify s) [a] [] (dispatched s))
  /\ canUndo (constructor (this_editorIdentify s)) = false
  /\ canRedo (constructor (this_editorIdentify s)) = false.
Proof.
  cbv zeta. repeat split.
  rewrite pushIntoUndoStack_asIs by (left; reflexivity). reflexivity.
Qed.

(** X3. A simple candidate whose change is of the other kind than the last
    change of the top record never folds: an insertion after a removal, or a
    removal after an insertion, is appended above the previous top whatever
    the positions. *)
Theorem mixed_kinds_never_fold
    (id idT idC : Ident) (init redo : list Action)
    (d : list (Dispatched Ident)) (sbT saT sb sa : TextSelection)
    (initc : list TextChange) (lst cur : TextChange) :
  start sa = end_ sa ->
  equals idC idT = true ->
  changeType lst <> changeType cur ->
  let top := newTextEditAction idT sbT saT (initc ++ [lst]) in
  let candidate := newTextEditAction idC sb sa [cur] in
  pushIntoUndoStack candidate (newStackState id (init ++ [top]) redo d)
  = (Normal tt, newStackState id (init ++ [top; candidate]) [] d).
Proof.
  intros Hcol Hid Hkind top candidate.
  apply pushIntoUndoStack_nofold; auto.
  destruct (folds lst cur) eqn:F; [| reflexivity].
  apply folds_cases in F as (_ & _ & [(A1 & A2 & _) | (R1 & R2 & _)]);
    elim Hkind; congruence.
Qed.

(** The three ways the policy can end, with the conditions of each. *)
Lemma pushIntoUndoStack_trichotomy (a : Action) (s : Stack) :
  (policyThrows a s /\ pushIntoUndoStack a s = (Throw TypeError, s))
  \/ (~ policyThrows a s /\ pushIntoUndoStack a s = (Normal tt, pushedAsIs a s))
  \/ (~ policyThrows a s
      /\ exists init top initc lst cur,
          undoActions s = init ++ [top]
          /\ textChanges top = initc ++ [lst]
          /\ textChanges a = [cur]
          /\ folds lst cur = true
          /\ pushIntoUndoStack a s
             = (Normal tt,
                newStackState (this_editorIdentify s)
                  (init ++ [newTextEditAction (editorIdentify a) (selectionBefore top)
                              (selectionAfter a) (initc ++ [combinedChange lst cur])])
                  [] (dispatched s))).
Proof.
  destruct (array_cases (undoActions s)) as [Hnil | (init & top & Hundo)].
  { right; left. split; [| apply pushIntoUndoStack_asIs; auto].
    intros (top & Hl & _). rewrite Hnil in Hl. discriminate. }
  assert (forall top', lastItem (undoActions s) = Some top' -> top' = top) as Htop.
  { intros top' Hl. rewrite Hundo, lastItem_snoc in Hl. congruence. }
  destruct (Z.ltb_spec 1 (arrayLength (textChanges a))) as [Hlen | Hlen].
  { right; left. split; [| apply pushIntoUndoStack_asIs; auto].
    intros (top' & _ & _ & _ & [E | (cur & E & _)]); rewrite E in Hlen;
      unfold arrayLength in Hlen; cbn in Hlen; lia. }
  destruct (Z.eq_dec (start (selectionAfter a)) (end_ (selectionAfter a)))
    as [Hcol | Hcol].
  2: { right; left. split; [| apply pushIntoUndoStack_asIs; auto].
       intros (top' & _ & Hc & _). now elim Hcol. }
  destruct (equals (editorIdentify a) (editorIdentify top)) eqn:Hid.
  2: { right; left. split.
       - intros (top' & Hl & _ & He & _). rewrite (Htop top' Hl) in He. congruence.
       - apply pushIntoUndoStack_asIs.
         right; right; right. exists top. rewrite Hundo, lastItem_snoc. auto. }
  destruct a as [idC sb sa tc], s as [id undo redo d], top as [idT sbT saT ctop].
  cbn in Hundo, Hlen, Hcol, Hid, Htop |- *. subst undo.
  destruct tc as [| cur [| cur' tc']].
  - left. split.
    + unfold policyThrows. cbn. eexists. rewrite lastItem_snoc.
      repeat split; eauto.
    + unfold pushIntoUndoStack, bind, this. cbn.
      rewrite arrayLength_snoc_eqb, arrayLength_snoc_ltb, item_last, Hcol, Z.eqb_refl.
      cbn. rewrite Hid. reflexivity.
  - destruct (array_cases ctop) as [-> | (initc & lst & ->)].
    + destruct (newlinesOnly (text cur)) eqn:Ncur.
      * right; left. split.
        -- intros (top' & Hl & _ & _ & [E | (cur0 & E & N & _)]);
             cbn in E; [discriminate | injection E as <-; congruence].
        -- unfold pushIntoUndoStack, bind, this. cbn.
           rewrite arrayLength_snoc_eqb, arrayLength_snoc_ltb, item_last, Hcol,
             Z.eqb_refl.
           cbn. rewrite Hid. cbn. rewrite Ncur. reflexivity.
      * left. split.
        -- unfold policyThrows. cbn. eexists. rewrite lastItem_snoc.
           repeat split; eauto.
        -- unfold pushIntoUndoStack, bind, this. cbn.
           rewrite arrayLength_snoc_eqb, arrayLength_snoc_ltb, item_last, Hcol,
             Z.eqb_refl.
           cbn. rewrite Hid. cbn. rewrite Ncur. reflexivity.
    + assert (~ policyThrows (newTextEditAction idC sb sa [cur])
                (newStackState id
                   (init ++ [newTextEditAction idT sbT saT (initc ++ [lst])]) redo d))
        as Hno.
      { intros (top' & Hl & _ & _ & [E | (cur0 & _ & _ & E)]); cbn in E.
        - discriminate.
        - cbn in Hl. rewrite (Htop top' Hl) in E. cbn in E.
          now destruct initc. }
      destruct (folds lst cur) eqn:F.
      * right; right. split; [exact Hno |].
        exists init, (newTextEditAction idT sbT saT (initc ++ [lst])),
          initc, lst, cur.
        repeat split; auto. now apply pushIntoUndoStack_fold.
      * right; left. split; [exact Hno |].
        unfold pushedAsIs. cbn. rewrite <- app_assoc.
        now apply pushIntoUndoStack_nofold.
  - unfold arrayLength in Hlen. cbn [length] in Hlen. lia.
Qed.

(** X4. What every push that returns leaves behind.  There is something to
    undo and nothing to redo.  The top record carries the identity and the
    selection after of the candidate, and its last change is of the kind of
    the candidate's last change.  The history is either one entry longer,
    with all previous entries kept, or as long as before, with all entries
    below the previous top kept. *)
Theorem push_leaves_candidate_on_top (a : Action) (s : Stack) :
  fst (pushIntoUndoStack a s) = Normal tt ->
  let s' := snd (pushIntoUndoStack a s) in
  canUndo s' = true
  /\ canRedo s' = false
  /\ (exists top',
        lastItem (undoActions s') = Some top'
        /\ editorIdentify top' = editorIdentify a
        /\ selectionAfter top' = selectionAfter a
        /\ option_map changeType (lastItem (textChanges top'))
           = option_map changeType (lastItem (textChanges a)))
  /\ ((undoActions s' = undoActions s ++ [a])
      \/ (arrayLength (undoActions s') = arrayLength (undoActions s)
          /\ removelast (undoActions s') = removelast (undoActions s))).
Proof.
  intros Hret s'. subst s'.
  destruct (pushIntoUndoStack_trichotomy a s)
    as [(_ & E) | [(_ & E)
       | (_ & init & top & initc & lst & cur & Hundo & Htop & Ha & F & E)]];
    rewrite E in Hret |- *; cbn in Hret |- *.
  - discriminate.
  - unfold canUndo, canRedo. cbn. rewrite arrayLength_snoc_ltb, lastItem_snoc.
    repeat split; [| now left]. exists a. repeat split.
  - unfold canUndo, canRedo. cbn. rewrite arrayLength_snoc_ltb, lastItem_snoc.
    repeat split.
    + eexists. split; [reflexivity |]. cbn. repeat split.
      rewrite Ha, lastItem_snoc. change [cur] with ([] ++ [cur]).
      rewrite lastItem_snoc. cbn.
      apply folds_cases in F as (_ & _ & [(A1 & A2 & _) | (R1 & R2 & _)]);
        unfold combinedChange.
      * rewrite A1. cbn. now rewrite A2.
      * rewrite R1, R2. now destruct (position cur =? position lst).
    + right. rewrite Hundo, !arrayLength_snoc, !removelast_last. auto.
Qed.

(** X5. [pushIntoUndoStack] throws a [TypeError] exactly when the candidate
    reaches step 2 of the policy (history not empty, caret collapsed,
    identity equal to the top's) with no change at all, or with one change
    that is not a run of line feeds while the top record has no change.  It
    throws before it has changed anything.  [updateByTextChanges] has then
    already dispatched its notification: the listeners are told of an edit
    that the histories do not record. *)
Theorem push_throws_exactly_on_missing_changes
    (a : Action) (s : Stack) (tc : list TextChange) (ls sel : TextSelection) :
  (fst (pushIntoUndoStack a s) = Throw TypeError <-> policyThrows a s)
  /\ (fst (pushIntoUndoStack a s) = Throw TypeError ->
      snd (pushIntoUndoStack a s) = s)
  /\ (let candidate := newTextEditAction (this_editorIdentify s) ls sel tc in
      policyThrows candidate s ->
      updateByTextChanges tc ls sel s
      = (Throw TypeError,
         newStackState (this_editorIdentify s) (undoActions s) (redoActions s)
           (dispatched s
            ++ [newDispatched "actionCreate" (newActionCreate update_ candidate)
                              (undoActions s) (redoActions s)]))).
Proof.
  split; [| split].
  - destruct (pushIntoUndoStack_trichotomy a s)
      as [(T & E) | [(T & E) | (T & ? & ? & ? & ? & ? & _ & _ & _ & _ & E)]];
      rewrite E; cbn; split; intros H; try discriminate; auto; now elim T.
  - destruct (pushIntoUndoStack_trichotomy a s)
      as [(T & E) | [(T & E) | (T & ? & ? & ? & ? & ? & _ & _ & _ & _ & E)]];
      rewrite E; cbn; intros H; try discriminate; reflexivity.
  - intros candidate Hthrows. rewrite updateByTextChanges_eq. cbv zeta.
    fold candidate. set (announced := newStackState _ _ _ _).
    assert (policyThrows candidate announced) as Hthrows' by exact Hthrows.
    destruct (pushIntoUndoStack_trichotomy candidate announced)
      as [(_ & E) | [(T & _) | (T & _)]]; [| now elim T | now elim T].
    rewrite E. reflexivity.
Qed.

End Further.

(* ------------------------------------------------------------------ *)
(** ** Further properties: calls that never throw, undo and redo as moves *)

Section Moves.

Context {Ident : Type} {identify : EditorIdentify Ident}.
Context {textDiffPatch : TextDiffPatch.Engine} {cursorPatch : CursorPatch.Engine}.

Local Abbreviation Action := (TextEditAction Ident).
Local Abbreviation Stack := (TextEditActionStack Ident).

Local Open Scope Z_scope.

(** [undo] on any stack, by the two cases of its guard. *)
Lemma undo_cases (text : jsString) (s : Stack) :
  (undoActions s = [] /\ undo text s = (Normal None, s))
  \/ (exists init top,
        undoActions s = init ++ [top]
        /\ undo text s
           = (Normal (Some (newRestored
                              (TextDiffPatch.apply text
                                 (TextDiffPatch.reverse (textChanges top)))
                              (selectionBefore top)
                              (reverseAction (repacked (this_editorIdentify s) top)))),
              newStackState (this_editorIdentify s) init
                (redoActions s ++ [repacked (this_editorIdentify s) top])
                (dispatched s
                 ++ [newDispatched "actionCreate"
                       (newActionCreate restore
                          (reverseAction (repacked (this_editorIdentify s) top)))
                       init
                       (redoActions s ++ [repacked (this_editorIdentify s) top])]))).
Proof.
  destruct (array_cases (undoActions s)) as [E | (init & top & E)].
  - left. split; [exact E | now apply undo_nothing].
  - right. exists init, top. split; [exact E |].
    destruct s as [id undo0 redo0 d].
    cbn [undoActions redoActions this_editorIdentify dispatched] in E |- *.
    subst undo0. now rewrite undo_pops.
Qed.

(** [redo] on any stack, by the two cases of its guard. *)
Lemma redo_cases (text : jsString) (s : Stack) :
  (redoActions s = [] /\ redo text s = (Normal None, s))
  \/ (exists init top,
        redoActions s = init ++ [top]
        /\ redo text s
           = (Normal (Some (newRestored
                              (TextDiffPatch.apply text (textChanges top))
                              (selectionAfter top)
                              (repacked (this_editorIdentify s) top))),
              newStackState (this_editorIdentify s)
                (undoActions s ++ [repacked (this_editorIdentify s) top]) init
                (dispatched s
                 ++ [newDispatched "actionCreate"
                       (newActionCreate restore (repacked (this_editorIdentify s) top))
                       (undoActions s ++ [repacked (this_editorIdentify s) top])
                       init]))).
Proof.
  destruct (array_cases (redoActions s)) as [E | (init & top & E)].
  - left. split; [exact E | now apply redo_nothing].
  - right. exists init, top. split; [exact E |].
    destruct s as [id undo0 redo0 d].
    cbn [undoActions redoActions this_editorIdentify dispatched] in E |- *.
    subst redo0. now rewrite redo_pops.
Qed.

(** A push of a record with changes onto histories of records with changes
    returns and keeps that. *)
Lemma push_keeps_changes (a : Action) (s : Stack) :
  textChanges a <> [] ->
  recordsHaveChanges s ->
  fst (pushIntoUndoStack a s) = Normal tt
  /\ recordsHaveChanges (snd (pushIntoUndoStack a s)).
Proof.
  intros Ha Hs. unfold recordsHaveChanges in *.
  apply Forall_app in Hs as [Hundo Hredo].
  destruct (pushIntoUndoStack_trichotomy a s)
    as [((top & Hl & _ & _ & [E | (cur & _ & _ & E)]) & _)
       | [(_ & ->) | (_ & init & top & initc & lst & cur & Hu & _ & _ & _ & ->)]].
  - now elim Ha.
  - apply lastItem_Some in Hl as [init Hl]. rewrite Hl in Hundo.
    apply Forall_app in Hundo as [_ Htop]. inversion Htop; subst. contradiction.
  - cbn. split; [reflexivity |]. rewrite app_nil_r.
    apply Forall_app. split; [exact Hundo | now constructor].
  - cbn. split; [reflexivity |]. rewrite app_nil_r.
    rewrite Hu in Hundo. apply Forall_app in Hundo as [Hinit _].
    apply Forall_app. split; [exact Hinit |]. constructor; [| constructor].
    cbn. now destruct initc.
Qed.

(** One call that brings changes returns and keeps the histories free of
    records without changes. *)
Lemma call_keeps_changes (c : Call) (s : Stack) :
  bringsChanges c ->
  recordsHaveChanges s ->
  callReturns c s = true /\ recordsHaveChanges (call c s).
Proof.
  intros Hc Hs.
  assert (forall tc ls sel, tc <> [] ->
            isNormal (fst (updateByTextChanges tc ls sel s)) = true
            /\ recordsHaveChanges (snd (updateByTextChanges tc ls sel s)))
    as Hupdate.
  { intros tc ls sel Htc. rewrite updateByTextChanges_eq. cbv zeta.
    set (a := newTextEditAction _ _ _ _). set (announced := newStackState _ _ _ _).
    destruct (push_keeps_changes a announced Htc Hs) as [Hret Hkeep].
    destruct (pushIntoUndoStack a announced) as [[[] | e] s'];
      [| discriminate]. now split. }
  destruct c as [| t0 t1 ls sel | tc ls sel | a t0 sel | text | text];
    cbn [callReturns call bringsChanges] in *.
  - split; [reflexivity | constructor].
  - now apply Hupdate.
  - now apply Hupdate.
  - rewrite updateAndApplyByExternalTextEditAction_eq.
    destruct (push_keeps_changes a s Hc Hs) as [Hret Hkeep].
    destruct (pushIntoUndoStack a s) as [[[] | e] s']; [| discriminate].
    now split.
  - destruct (undo_cases text s) as [(_ & ->) | (init & top & Hu & ->)];
      cbn; split; auto.
    unfold recordsHaveChanges in *. cbn. rewrite Hu in Hs.
    rewrite <- app_assoc in Hs. apply Forall_app in Hs as [Hinit Hrest].
    apply Forall_app. split; [exact Hinit |].
    inversion Hrest as [| ? ? Htop Hredo]; subst.
    apply Forall_app. split; [exact Hredo | now constructor].
  - destruct (redo_cases text s) as [(_ & ->) | (init & top & Hr & ->)];
      cbn; split; auto.
    unfold recordsHaveChanges in *. cbn. rewrite Hr in Hs.
    apply Forall_app in Hs as [Hundo Hrest].
    apply Forall_app in Hrest as [Hinit Htop].
    inversion Htop; subst.
    rewrite <- app_assoc. apply Forall_app. split; [exact Hundo |].
    now constructor.
Qed.

(** X6. As long as every change sequence handed to the stack has an entry
    (the changes given to [updateByTextChanges], those the diff engine
    reports to [update], those of an external record), no call ever throws,
    from any stack whose records have changes, and the histories never hold
    a record without changes.  [undo], [redo] and [clear] never throw. *)
Theorem calls_with_changes_never_throw (calls : list Call) (s : Stack) :
  recordsHaveChanges s ->
  Forall bringsChanges calls ->
  runChecked calls s = Some (run calls s)
  /\ recordsHaveChanges (run calls s).
Proof.
  revert s. induction calls as [| c calls IH]; intros s Hs Hcalls.
  - now split.
  - inversion Hcalls as [| ? ? Hc Hrest]; subst.
    destruct (call_keeps_changes c s Hc Hs) as [Hret Hkeep].
    cbn [runChecked]. rewrite Hret. unfold run in *. cbn [fold_left].
    now apply IH.
Qed.

(** X7. [undo] and [redo] never throw, and they only move records between
    the two histories: the number of records in both together stays the
    same, as does the identity of the stack.  A call that finds nothing to
    pop changes nothing.  A call that pops moves one record and dispatches
    exactly one notification. *)
Theorem undo_and_redo_move_one_record (text : jsString) (s : Stack) :
  let u := undo text s in
  let r := redo text s in
  isNormal (fst u) = true /\ isNormal (fst r) = true
  /\ arrayLength (undoActions (snd u)) + arrayLength (redoActions (snd u))
     = arrayLength (undoActions s) + arrayLength (redoActions s)
  /\ arrayLength (undoActions (snd r)) + arrayLength (redoActions (snd r))
     = arrayLength (undoActions s) + arrayLength (redoActions s)
  /\ this_editorIdentify (snd u) = this_editorIdentify s
  /\ this_editorIdentify (snd r) = this_editorIdentify s
  /\ (canUndo s = false -> u = (Normal None, s))
  /\ (canRedo s = false -> r = (Normal None, s))
  /\ (canUndo s = true ->
      arrayLength (undoActions (snd u)) = arrayLength (undoActions s) - 1
      /\ arrayLength (dispatched (snd u)) = arrayLength (dispatched s) + 1)
  /\ (canRedo s = true ->
      arrayLength (redoActions (snd r)) = arrayLength (redoActions s) - 1
      /\ arrayLength (dispatched (snd r)) = arrayLength (dispatched s) + 1).
Proof.
  intros u r. subst u r. unfold canUndo, canRedo.
  destruct (undo_cases text s) as [(Eu & ->) | (iu & tu & Eu & ->)];
    destruct (redo_cases text s) as [(Er & ->) | (ir & tr & Er & ->)];
    cbn [fst snd isNormal undoActions redoActions dispatched this_editorIdentify];
    rewrite ?Eu, ?Er, ?arrayLength_snoc;
    repeat match goal with |- _ /\ _ => split end;
    try reflexivity; try lia; intros H;
    first [ reflexivity
          | discriminate H
          | apply Z.ltb_ge in H; unfold arrayLength in H; lia
          | split; unfold arrayLength; cbn [length]; lia ].
Qed.

(** X8. Let the top of the redo history replay a text [t] into [s], and let
    the diff engine undo on [t] what these changes did.  Then [redo] of [t]
    returns [s], and [undo] of what [redo] returned gives back exactly [t]
    and the selection before of the record.  The undo history is again what
    it was, and the top of the redo history is the same record stamped with
    the identity of the stack. *)
Theorem undo_after_redo_restores
    (id : Ident) (undo0 init : list Action) (top : Action)
    (d : list (Dispatched Ident)) (t : jsString) :
  TextDiffPatch.apply (TextDiffPatch.apply t (textChanges top))
                      (TextDiffPatch.reverse (textChanges top)) = t ->
  let stack := newStackState id undo0 (init ++ [top]) d in
  canRedo stack = true
  /\ exists redone undone stack1 stack2,
      redo t stack = (Normal (Some redone), stack1)
      /\ restoredTextContent redone = TextDiffPatch.apply t (textChanges top)
      /\ undo (restoredTextContent redone) stack1 = (Normal (Some undone), stack2)
      /\ restoredTextContent undone = t
      /\ restoredSelection undone = selectionBefore top
      /\ undoActions stack2 = undo0
      /\ redoActions stack2 = init ++ [repacked id top].
Proof.
  intros Hcontract stack. subst stack. split.
  - unfold canRedo. cbn. apply arrayLength_snoc_ltb.
  - do 4 eexists. rewrite redo_pops.
    split; [reflexivity |]. cbn [restoredTextContent textChanges].
    split; [reflexivity |].
    rewrite undo_pops. cbn. rewrite Hcontract. repeat split.
Qed.

End Moves.

(* ------------------------------------------------------------------ *)
(** ** Further properties: whole histories, notifications, identities *)

Section Histories.

Context {Ident : Type} {identify : EditorIdentify Ident}.
Context {textDiffPatch : TextDiffPatch.Engine} {cursorPatch : CursorPatch.Engine}.

Local Abbreviation Action := (TextEditAction Ident).
Local Abbreviation Stack := (TextEditActionStack Ident).

Local Open Scope Z_scope.

Lemma run_app (calls1 calls2 : list Call) (s : Stack) :
  run (calls1 ++ calls2) s = run calls2 (run calls1 s).
Proof. unfold run. apply fold_left_app. Qed.

Lemma repacked_again (id : Ident) (a : Action) :
  repacked id (repacked id a) = repacked id a.
Proof. reflexivity. Qed.

(** As many undos as there are records empty the undo history into the redo
    history, last record first. *)
Lemma undo_all (id : Ident) (l : list Action) :
  forall (r : list Action) (d : list (Dispatched Ident)) (texts : list jsString),
    length texts = length l ->
    exists d',
      run (map CallUndo texts) (newStackState id l r d)
      = newStackState id [] (r ++ rev (map (repacked id) l)) d'.
Proof.
  induction l as [| top init IH] using rev_ind; intros r d texts Hlen.
  - destruct texts; [| discriminate]. exists d. cbn. now rewrite app_nil_r.
  - rewrite length_app in Hlen. cbn [length] in Hlen.
    destruct texts as [| t texts]; [cbn [length] in Hlen; lia |].
    cbn [length] in Hlen.
    assert (length texts = length init) as Hlen' by lia.
    cbn [map]. unfold run. cbn [fold_left call]. rewrite undo_pops. cbn [snd].
    destruct (IH (r ++ [repacked id top]) (d ++ [newDispatched "actionCreate"
                  (newActionCreate restore (reverseAction (repacked id top)))
                  init (r ++ [repacked id top])]) texts Hlen')
      as [d' E].
    exists d'. unfold run in E. unfold repacked in E |- *. rewrite E.
    rewrite map_app, rev_app_distr, <- app_assoc. reflexivity.
Qed.

(** As many redos as there are records to redo move them all back. *)
Lemma redo_all (id : Ident) (rr : list Action) :
  forall (u : list Action) (d : list (Dispatched Ident)) (texts : list jsString),
    length texts = length rr ->
    exists d',
      run (map CallRedo texts) (newStackState id u rr d)
      = newStackState id (u ++ rev (map (repacked id) rr)) [] d'.
Proof.
  induction rr as [| top init IH] using rev_ind; intros u d texts Hlen.
  - destruct texts; [| discriminate]. exists d. cbn. now rewrite app_nil_r.
  - rewrite length_app in Hlen. cbn [length] in Hlen.
    destruct texts as [| t texts]; [cbn [length] in Hlen; lia |].
    cbn [length] in Hlen.
    assert (length texts = length init) as Hlen' by lia.
    cbn [map]. unfold run. cbn [fold_left call]. rewrite redo_pops. cbn [snd].
    destruct (IH (u ++ [repacked id top]) (d ++ [newDispatched "actionCreate"
                  (newActionCreate restore (repacked id top))
                  (u ++ [repacked id top]) init]) texts Hlen')
      as [d' E].
    exists d'. unfold run in E. unfold repacked in E |- *. rewrite E.
    rewrite map_app, rev_app_distr, <- app_assoc. reflexivity.
Qed.

(** X9. Undo called once for every record of the undo history empties it and
    puts the records on the redo history in the opposite order, each under
    the identity of the stack.  From a stack with nothing to redo, redo
    called as many times then rebuilds the undo history in its order, each
    record under the identity of the stack, and leaves nothing to redo. *)
Theorem undo_all_then_redo_all
    (id : Ident) (l r : list Action) (d : list (Dispatched Ident))
    (texts texts' : list jsString) :
  length texts = length l ->
  length texts' = length l ->
  let emptied := run (map CallUndo texts) (newStackState id l r d) in
  let rebuilt :=
    run (map CallUndo texts ++ map CallRedo texts') (newStackState id l [] d) in
  undoActions emptied = []
  /\ redoActions emptied = r ++ rev (map (repacked id) l)
  /\ undoActions rebuilt = map (repacked id) l
  /\ redoActions rebuilt = [].
Proof.
  intros Hlen Hlen' emptied rebuilt. subst emptied rebuilt.
  destruct (undo_all id l r d texts Hlen) as [d1 ->].
  rewrite run_app.
  destruct (undo_all id l [] d texts Hlen) as [d2 ->].
  cbn [app].
  destruct (redo_all id (rev (map (repacked id) l)) [] d2 texts') as [d3 ->].
  { now rewrite length_rev, length_map. }
  cbn. repeat split.
  rewrite <- map_rev, rev_involutive, map_map.
  apply map_ext. intros a. apply repacked_again.
Qed.

(** No call changes the identity of the stack. *)
Lemma call_keeps_own_identity (c : Call) (s : Stack) :
  this_editorIdentify (call c s) = this_editorIdentify s.
Proof.
  destruct c as [| t0 t1 ls sel | tc ls sel | a t0 sel | text | text];
    cbn [call].
  - reflexivity.
  - unfold update. rewrite updateByTextChanges_eq. cbv zeta.
    set (a := newTextEditAction _ _ _ _). set (announced := newStackState _ _ _ _).
    destruct (pushIntoUndoStack_frame a announced) as [Hi _].
    destruct (pushIntoUndoStack a announced) as [[[] | e] s']; exact Hi.
  - rewrite updateByTextChanges_eq. cbv zeta.
    set (a := newTextEditAction _ _ _ _). set (announced := newStackState _ _ _ _).
    destruct (pushIntoUndoStack_frame a announced) as [Hi _].
    destruct (pushIntoUndoStack a announced) as [[[] | e] s']; exact Hi.
  - rewrite updateAndApplyByExternalTextEditAction_eq.
    destruct (pushIntoUndoStack_frame a s) as [Hi _].
    destruct (pushIntoUndoStack a s) as [[[] | e] s']; exact Hi.
  - destruct (undo_cases text s) as [(_ & ->) | (init & top & _ & ->)]; reflexivity.
  - destruct (redo_cases text s) as [(_ & ->) | (init & top & _ & ->)]; reflexivity.
Qed.

Lemma run_keeps_own_identity (calls : list Call) (s : Stack) :
  this_editorIdentify (run calls s) = this_editorIdentify s.
Proof.
  induction calls as [| c calls IH] using rev_ind; [reflexivity |].
  rewrite run_app. cbn. now rewrite call_keeps_own_identity.
Qed.

(** One call keeps the identity of the stack and dispatches only records
    under it. *)
Lemma call_notifies_as (id : Ident) (c : Call) (s : Stack) :
  this_editorIdentify s = id ->
  notifiesAs id s ->
  this_editorIdentify (call c s) = id /\ notifiesAs id (call c s).
Proof.
  intros Hid Hn. unfold notifiesAs in *.
  assert (forall tc ls sel,
            this_editorIdentify (snd (updateByTextChanges tc ls sel s)) = id
            /\ Forall (fun e => eventName e = "actionCreate"%string
                                /\ editorIdentify (textEditAction (payload e)) = id)
                      (dispatched (snd (updateByTextChanges tc ls sel s))))
    as Hupdate.
  { intros tc ls sel. rewrite updateByTextChanges_eq. cbv zeta.
    set (a := newTextEditAction _ _ _ _). set (announced := newStackState _ _ _ _).
    destruct (pushIntoUndoStack_frame a announced) as [Hi Hd].
    destruct (pushIntoUndoStack a announced) as [[[] | e] s'];
      cbn [snd] in Hi, Hd |- *; rewrite Hi, Hd; subst announced; cbn;
      (split; [exact Hid |]); apply Forall_app; (split; [exact Hn |]);
      constructor; [now split | constructor | now split | constructor]. }
  destruct c as [| t0 t1 ls sel | tc ls sel | a t0 sel | text | text];
    cbn [call].
  - now split.
  - apply Hupdate.
  - apply Hupdate.
  - rewrite updateAndApplyByExternalTextEditAction_eq.
    destruct (pushIntoUndoStack_frame a s) as [Hi Hd].
    destruct (pushIntoUndoStack a s) as [[[] | e] s'];
      cbn [snd] in Hi, Hd |- *; rewrite Hi, Hd; now split.
  - destruct (undo_cases text s) as [(_ & ->) | (init & top & _ & ->)];
      cbn; [now split |]. split; [exact Hid |].
    apply Forall_app. split; [exact Hn |]. constructor; [now split | constructor].
  - destruct (redo_cases text s) as [(_ & ->) | (init & top & _ & ->)];
      cbn; [now split |]. split; [exact Hid |].
    apply Forall_app. split; [exact Hn |]. constructor; [now split | constructor].
Qed.

(** X11. On every stack that calls on a new stack of [id] produce, every
    notification dispatched so far is an [actionCreate] whose record carries
    [id], also the reversal that undo announces for a record that came from
    another editor.  An external edit and [clear] dispatch nothing. *)
Theorem notifications_carry_own_identity
    (id : Ident) (calls : list Call) (s : Stack)
    (a : Action) (t : jsString) (sel : TextSelection) :
  notifiesAs id (run calls (constructor id))
  /\ this_editorIdentify (run calls (constructor id)) = id
  /\ dispatched (call (CallExternal a t sel) s) = dispatched s
  /\ dispatched (call CallClear s) = dispatched s.
Proof.
  split; [| split; [| split]].
  - induction calls as [| c calls IH] using rev_ind.
    + constructor.
    + rewrite run_app. cbn.
      apply call_notifies_as; [| exact IH].
      apply run_keeps_own_identity.
  - apply run_keeps_own_identity.
  - cbn [call]. rewrite updateAndApplyByExternalTextEditAction_eq.
    destruct (pushIntoUndoStack_frame a s) as [_ Hd].
    destruct (pushIntoUndoStack a s) as [[[] | e] s']; exact Hd.
  - reflexivity.
Qed.

End Histories.

(* ------------------------------------------------------------------ *)
(** ** Further properties: runs of keys *)

Section Keys.

Context {Ident : Type} {identify : EditorIdentify Ident}.
Context {textDiffPatch : TextDiffPatch.Engine} {cursorPatch : CursorPatch.Engine}.

Local Abbreviation Action := (TextEditAction Ident).
Local Abbreviation Stack := (TextEditActionStack Ident).

Local Open Scope Z_scope.

(** A text with a unit other than the line feed is not a run of line
    feeds. *)
Lemma newlinesOnly_other (s : jsString) (c : codeUnit) :
  In c s -> c <> LF -> newlinesOnly s = false.
Proof.
  intros Hin Hc. destruct (newlinesOnly s) eqn:E; [| reflexivity].
  apply newlinesOnly_spec in E as [_ Hall].
  rewrite Forall_forall in Hall. now elim Hc; apply Hall.
Qed.

(** One key on a stack whose only record has one change that the key folds
    into. *)
Lemma key_extends_sole_entry (id : Ident) (sb sa0 ls : TextSelection) (e : Z)
    (redo : list Action) (d : list (Dispatched Ident)) (lst cur : TextChange) :
  equals id id = true ->
  folds lst cur = true ->
  exists d',
    call (CallUpdateByTextChanges [cur] ls (newTextSelection e e))
         (newStackState id [newTextEditAction id sb sa0 [lst]] redo d)
    = newStackState id
        [newTextEditAction id sb (newTextSelection e e) [combinedChange lst cur]]
        [] d'.
Proof.
  intros Hrefl Hfold. eexists. unfold call.
  rewrite updateByTextChanges_eq. cbn -[pushIntoUndoStack].
  match goal with
  | |- context [pushIntoUndoStack _ (newStackState _ _ _ ?d1)] =>
      pose proof (pushIntoUndoStack_fold id id id [] redo d1 sb sa0 ls
                    (newTextSelection e e) [] lst cur eq_refl Hrefl Hfold) as F
  end.
  cbn [app] in F. rewrite F. reflexivity.
Qed.

(** The first key on an empty undo history makes the only record. *)
Lemma key_on_empty_history (s : Stack) (cur : TextChange) (ls sel : TextSelection) :
  undoActions s = [] ->
  exists d',
    call (CallUpdateByTextChanges [cur] ls sel) s
    = newStackState (this_editorIdentify s)
        [newTextEditAction (this_editorIdentify s) ls sel [cur]] [] d'.
Proof.
  intros Hempty. eexists. unfold call.
  rewrite updateByTextChanges_eq. cbv zeta.
  rewrite pushIntoUndoStack_asIs by (left; exact Hempty).
  unfold pushedAsIs. cbn. rewrite Hempty. reflexivity.
Qed.

Lemma typed_keys_extend (id : Ident) (Hrefl : equals id id = true)
    (sb : TextSelection) (p : Z) (cs : list codeUnit) :
  forall (t : jsString) (sa0 : TextSelection) (redo : list Action)
         (d : list (Dispatched Ident)),
    (exists c, In c t /\ c <> LF) ->
    Forall (fun c => c <> LF) cs ->
    exists d',
      run (typedKeys (p + jsLength t) cs)
          (newStackState id [newTextEditAction id sb sa0 [newTextChange p added t]]
                         redo d)
      = newStackState id
          [newTextEditAction id sb
             (match cs with
              | [] => sa0
              | _ => newTextSelection (p + jsLength (t ++ cs)) (p + jsLength (t ++ cs))
              end)
             [newTextChange p added (t ++ cs)]]
          (match cs with [] => redo | _ => [] end) d'.
Proof.
  induction cs as [| c rest IH]; intros t sa0 redo d (h & Hin & Hh) Hcs.
  - exists d. cbn. now rewrite app_nil_r.
  - inversion Hcs as [| ? ? Hc Hrest]; subst.
    cbn [typedKeys]. unfold run. cbn [fold_left]. fold (run (Ident := Ident)).
    assert (folds (newTextChange p added t)
                  (newTextChange (p + jsLength t) added [c]) = true) as Hfold.
    { apply folds_cases. cbn [text changeType position].
      rewrite (newlinesOnly_other t h Hin Hh),
        (newlinesOnly_other [c] c (or_introl eq_refl) Hc).
      auto 10. }
    destruct (key_extends_sole_entry id sb sa0
                (newTextSelection (p + jsLength t) (p + jsLength t))
                (p + jsLength t + 1) redo d
                (newTextChange p added t)
                (newTextChange (p + jsLength t) added [c]) Hrefl Hfold)
      as [d1 ->].
    unfold combinedChange. cbn [changeType position text].
    assert (p + jsLength t + 1 = p + jsLength (t ++ [c])) as Epos.
    { unfold jsLength. rewrite length_app. cbn. lia. }
    rewrite Epos.
    destruct (IH (t ++ [c])
                (newTextSelection (p + jsLength (t ++ [c])) (p + jsLength (t ++ [c])))
                [] d1
                (ex_intro _ h (conj (in_or_app _ _ _ (or_introl Hin)) Hh)) Hrest)
      as [d2 E].
    exists d2. unfold run in E |- *. rewrite E. rewrite <- app_assoc. cbn [app].
    destruct rest; reflexivity.
Qed.

Lemma backspace_keys_extend (id : Ident) (Hrefl : equals id id = true)
    (sb : TextSelection) (cs : list codeUnit) :
  forall (q : Z) (t : jsString) (sa0 : TextSelection) (redo : list Action)
         (d : list (Dispatched Ident)),
    (exists c, In c t /\ c <> LF) ->
    Forall (fun c => c <> LF) cs ->
    exists d',
      run (backspaceKeys q cs)
          (newStackState id [newTextEditAction id sb sa0 [newTextChange q removed t]]
                         redo d)
      = newStackState id
          [newTextEditAction id sb
             (match cs with
              | [] => sa0
              | _ => newTextSelection (q - jsLength cs) (q - jsLength cs)
              end)
             [newTextChange (q - jsLength cs) removed (rev cs ++ t)]]
          (match cs with [] => redo | _ => [] end) d'.
Proof.
  induction cs as [| c rest IH]; intros q t sa0 redo d (h & Hin & Hh) Hcs.
  - exists d. cbn. now rewrite Z.sub_0_r.
  - inversion Hcs as [| ? ? Hc Hrest]; subst.
    cbn [backspaceKeys]. unfold run. cbn [fold_left]. fold (run (Ident := Ident)).
    assert (folds (newTextChange q removed t)
                  (newTextChange (q - 1) removed [c]) = true) as Hfold.
    { apply folds_cases. cbn [text changeType position].
      rewrite (newlinesOnly_other t h Hin Hh),
        (newlinesOnly_other [c] c (or_introl eq_refl) Hc).
      repeat split. right. repeat split. right. unfold jsLength. cbn. lia. }
    destruct (key_extends_sole_entry id sb sa0 (newTextSelection q q) (q - 1) redo d
                (newTextChange q removed t)
                (newTextChange (q - 1) removed [c]) Hrefl Hfold)
      as [d1 ->].
    unfold combinedChange. cbn [changeType position text].
    destruct (Z.eqb_spec (q - 1) q) as [E | _]; [lia |].
    destruct (IH (q - 1) ([c] ++ t) (newTextSelection (q - 1) (q - 1)) [] d1
                (ex_intro _ c (conj (or_introl eq_refl) Hc)) Hrest)
      as [d2 E].
    exists d2. unfold run in E |- *. rewrite E. clear E IH.
    assert (q - 1 - jsLength rest = q - jsLength (c :: rest)) as Epos.
    { unfold jsLength. cbn [length]. lia. }
    assert (match rest with
            | [] => newTextSelection (q - 1) (q - 1)
            | _ => newTextSelection (q - 1 - jsLength rest) (q - 1 - jsLength rest)
            end
            = newTextSelection (q - jsLength (c :: rest)) (q - jsLength (c :: rest)))
      as Esel.
    { rewrite <- Epos. destruct rest; [| reflexivity].
      unfold jsLength. cbn. now rewrite Z.sub_0_r. }
    rewrite Esel, Epos. cbn [rev]. rewrite <- app_assoc. cbn [app].
    destruct rest; reflexivity.
Qed.

Lemma delete_keys_extend (id : Ident) (Hrefl : equals id id = true)
    (sb : TextSelection) (p : Z) (cs : list codeUnit) :
  forall (t : jsString) (sa0 : TextSelection) (redo : list Action)
         (d : list (Dispatched Ident)),
    (exists c, In c t /\ c <> LF) ->
    Forall (fun c => c <> LF) cs ->
    exists d',
      run (deleteKeys p cs)
          (newStackState id [newTextEditAction id sb sa0 [newTextChange p removed t]]
                         redo d)
      = newStackState id
          [newTextEditAction id sb
             (match cs with [] => sa0 | _ => newTextSelection p p end)
             [newTextChange p removed (t ++ cs)]]
          (match cs with [] => redo | _ => [] end) d'.
Proof.
  induction cs as [| c rest IH]; intros t sa0 redo d (h & Hin & Hh) Hcs.
  - exists d. cbn. now rewrite app_nil_r.
  - inversion Hcs as [| ? ? Hc Hrest]; subst.
    cbn [deleteKeys]. unfold run. cbn [fold_left]. fold (run (Ident := Ident)).
    assert (folds (newTextChange p removed t) (newTextChange p removed [c]) = true)
      as Hfold.
    { apply folds_cases. cbn [text changeType position].
      rewrite (newlinesOnly_other t h Hin Hh),
        (newlinesOnly_other [c] c (or_introl eq_refl) Hc).
      auto 10. }
    destruct (key_extends_sole_entry id sb sa0 (newTextSelection p p) p redo d
                (newTextChange p removed t)
                (newTextChange p removed [c]) Hrefl Hfold)
      as [d1 ->].
    unfold combinedChange. cbn [changeType position text]. rewrite Z.eqb_refl.
    destruct (IH (t ++ [c]) (newTextSelection p p) [] d1
                (ex_intro _ h (conj (in_or_app _ _ _ (or_introl Hin)) Hh)) Hrest)
      as [d2 E].
    exists d2. unfold run in E |- *. rewrite E. rewrite <- app_assoc. cbn [app].
    destruct rest; reflexivity.
Qed.

(** X10. Keys other than the line feed, typed one after the other from a
    caret on an empty undo history of an identity that equals itself, leave
    one record: it inserts the whole text at the first offset, with the
    selection before of the first key and the selection after of the last.
    Nothing is left to redo.  One [undo] then takes the whole run back: it
    returns the reversal of that record and empties the undo history. *)
Theorem typed_run_is_one_record
    (s : Stack) (p : Z) (c0 : codeUnit) (cs : list codeUnit) (text : jsString) :
  equals (this_editorIdentify s) (this_editorIdentify s) = true ->
  undoActions s = [] ->
  Forall (fun c => c <> LF) (c0 :: cs) ->
  let id := this_editorIdentify s in
  let q := p + jsLength (c0 :: cs) in
  let record :=
    newTextEditAction id (newTextSelection p p) (newTextSelection q q)
                      [newTextChange p added (c0 :: cs)] in
  let s' := run (typedKeys p (c0 :: cs)) s in
  undoActions s' = [record]
  /\ redoActions s' = []
  /\ fst (undo text s')
     = Normal (Some (newRestored
                       (TextDiffPatch.apply text
                          (TextDiffPatch.reverse (textChanges record)))
                       (newTextSelection p p) (reverseAction record)))
  /\ undoActions (snd (undo text s')) = []
  /\ redoActions (snd (undo text s')) = [record].
Proof.
  intros Hrefl Hempty Hkeys id q record s'.
  inversion Hkeys as [| ? ? Hc0 Hcs]; subst.
  assert (exists d', s' = newStackState id [record] [] d') as [d' E].
  { subst s'. cbn [typedKeys]. unfold run. cbn [fold_left].
    destruct (key_on_empty_history s (newTextChange p added [c0])
                (newTextSelection p p) (newTextSelection (p + 1) (p + 1)) Hempty)
      as [d1 ->].
    fold id.
    destruct (typed_keys_extend id Hrefl (newTextSelection p p) p cs [c0]
                (newTextSelection (p + 1) (p + 1)) [] d1
                (ex_intro _ c0 (conj (or_introl eq_refl) Hc0)) Hcs)
      as [d2 E].
    exists d2. unfold run in E.
    change (p + jsLength [c0]) with (p + 1) in E. rewrite E.
    subst record q. destruct cs; reflexivity. }
  rewrite E. cbn [undoActions redoActions].
  change [record] with ([] ++ [record]). rewrite undo_pops.
  repeat split.
Qed.

(** X14. Backspace pressed for units other than the line feed, from a caret
    on an empty undo history of an identity that equals itself, leaves one
    record: it removes the units in the order they stand in the text (the
    last pressed first) at the offset the caret ends on, with the selection
    before of the first press. *)
Theorem backspace_run_is_one_record
    (s : Stack) (p : Z) (c0 : codeUnit) (cs : list codeUnit) :
  equals (this_editorIdentify s) (this_editorIdentify s) = true ->
  undoActions s = [] ->
  Forall (fun c => c <> LF) (c0 :: cs) ->
  let id := this_editorIdentify s in
  let q := p - jsLength (c0 :: cs) in
  let s' := run (backspaceKeys p (c0 :: cs)) s in
  undoActions s'
  = [newTextEditAction id (newTextSelection p p) (newTextSelection q q)
                       [newTextChange q removed (rev (c0 :: cs))]]
  /\ redoActions s' = [].
Proof.
  intros Hrefl Hempty Hkeys id q s'.
  inversion Hkeys as [| ? ? Hc0 Hcs]; subst.
  subst s'. cbn [backspaceKeys]. unfold run. cbn [fold_left].
  destruct (key_on_empty_history s (newTextChange (p - 1) removed [c0])
              (newTextSelection p p) (newTextSelection (p - 1) (p - 1)) Hempty)
    as [d1 ->].
  fold id.
  destruct (backspace_keys_extend id Hrefl (newTextSelection p p) cs (p - 1) [c0]
              (newTextSelection (p - 1) (p - 1)) [] d1
              (ex_intro _ c0 (conj (or_introl eq_refl) Hc0)) Hcs)
    as [d2 E].
  unfold run in E. rewrite E. cbn [undoActions redoActions].
  assert (p - 1 - jsLength cs = q) as Epos.
  { subst q. unfold jsLength. cbn [length]. lia. }
  rewrite Epos. split; [| now destruct cs].
  destruct cs; [| reflexivity].
  subst q. unfold jsLength. cbn. reflexivity.
Qed.

(** X15. Delete pressed for units other than the line feed, with the caret
    on an empty undo history of an identity that equals itself, leaves one
    record: it removes the units in the order they were removed, at the
    offset of the caret, which does not move. *)
Theorem delete_run_is_one_record
    (s : Stack) (p : Z) (c0 : codeUnit) (cs : list codeUnit) :
  equals (this_editorIdentify s) (this_editorIdentify s) = true ->
  undoActions s = [] ->
  Forall (fun c => c <> LF) (c0 :: cs) ->
  let id := this_editorIdentify s in
  let s' := run (deleteKeys p (c0 :: cs)) s in
  undoActions s'
  = [newTextEditAction id (newTextSelection p p) (newTextSelection p p)
                       [newTextChange p removed (c0 :: cs)]]
  /\ redoActions s' = [].
Proof.
  intros Hrefl Hempty Hkeys id s'.
  inversion Hkeys as [| ? ? Hc0 Hcs]; subst.
  subst s'. cbn [deleteKeys]. unfold run. cbn [fold_left].
  destruct (key_on_empty_history s (newTextChange p removed [c0])
              (newTextSelection p p) (newTextSelection p p) Hempty)
    as [d1 ->].
  fold id.
  destruct (delete_keys_extend id Hrefl (newTextSelection p p) p cs [c0]
              (newTextSelection p p) [] d1
              (ex_intro _ c0 (conj (or_introl eq_refl) Hc0)) Hcs)
    as [d2 E].
  unfold run in E. rewrite E. cbn [undoActions redoActions].
  split; now destruct cs.
Qed.

(** X13. The policy keeps apart only the texts made of line feeds: the test
    holds of the texts of one or more line feeds and of no other, not of the
    empty text.  A text with any other unit, such as a carriage return
    before the line feed, is folded like any typed text: a simple insertion
    of such a text right after an insertion of such a text extends it. *)
Theorem only_line_feed_runs_are_kept_apart
    (id idT idC : Ident) (init redo : list Action)
    (d : list (Dispatched Ident)) (sbT saT sb sa : TextSelection)
    (initc : list TextChange) (p : Z) (t u : jsString) (x y : codeUnit) :
  (forall w, newlinesOnly w = true <-> exists n, w = repeat LF (S n))
  /\ (start sa = end_ sa ->
      equals idC idT = true ->
      In x t -> x <> LF ->
      In y u -> y <> LF ->
      pushIntoUndoStack
        (newTextEditAction idC sb sa [newTextChange (p + jsLength t) added u])
        (newStackState id
           (init ++ [newTextEditAction idT sbT saT
                       (initc ++ [newTextChange p added t])]) redo d)
      = (Normal tt,
         newStackState id
           (init ++ [newTextEditAction idC sbT sa
                       (initc ++ [newTextChange p added (t ++ u)])])
           [] d)).
Proof.
  split.
  - intros w. rewrite newlinesOnly_spec. split.
    + intros [Hne Hall]. destruct w as [| c w]; [now elim Hne |].
      exists (length w).
      assert (Forall (eq LF) (c :: w)) as Hall'
        by (eapply Forall_impl; [| exact Hall]; intros; now symmetry).
      apply Forall_eq_repeat in Hall'. exact Hall'.
    + intros [n ->]. split; [discriminate |].
      apply Forall_forall. intros c Hc. now apply repeat_spec in Hc.
  - intros Hcol Hid Hx Hx' Hy Hy'.
    rewrite pushIntoUndoStack_fold; auto.
    apply folds_cases. cbn [text changeType position].
    rewrite (newlinesOnly_other t x Hx Hx'), (newlinesOnly_other u y Hy Hy').
    auto 10.
Qed.

End Keys.

(* ------------------------------------------------------------------ *)
(** ** The identity classes of the repository in the policy *)

(** An identity whose [equals] never holds makes rule 1 catch every
    candidate. *)
Lemma never_equal_always_appends {Ident : Type} {identify : EditorIdentify Ident}
    (a : TextEditAction Ident) (s : TextEditActionStack Ident) :
  (forall x y : Ident, equals x y = false) ->
  pushIntoUndoStack a s = (Normal tt, pushedAsIs a s).
Proof.
  intros Hnever. apply pushIntoUndoStack_asIs.
  destruct (array_cases (undoActions s)) as [E | (init & top & E)]; [now left |].
  right; right; right. exists top. rewrite E, lastItem_snoc. auto.
Qed.

(** X12. With an identity whose [equals] never holds the policy never folds:
    every push returns with the candidate appended as it is.  Both identity
    classes of the repository are such.  The base class answers [false] to
    everything.  The class of the tests compares its name with the identity
    object it is given, a string with an object, so it answers [true] only
    to its own name passed as a string, which the stack never passes. *)
Theorem repository_identities_never_fold :
  (forall (Ident : Type) (identify : EditorIdentify Ident)
          (a : TextEditAction Ident) (s : TextEditActionStack Ident),
      (forall x y : Ident, equals x y = false) ->
      pushIntoUndoStack a s = (Normal tt, pushedAsIs a s)
      /\ arrayLength (undoActions (snd (pushIntoUndoStack a s)))
         = (arrayLength (undoActions s) + 1)%Z)
  /\ (forall x y : AbstractEditorIdentify.t,
         @equals _ AbstractEditorIdentify.equals_false x y = false)
  /\ (forall x y : TestEditorIdentify.t,
         @equals _ TestEditorIdentify.equals_name_to_object x y = false)
  /\ (forall x : TestEditorIdentify.t,
         TestEditorIdentify.equalsOperand
           x (TestEditorIdentify.StringValue (TestEditorIdentify.name x)) = true).
Proof.
  split; [| split; [| split]].
  - intros Ident identify a s Hnever.
    rewrite (never_equal_always_appends a s Hnever). split; [reflexivity |].
    cbn. apply arrayLength_snoc.
  - reflexivity.
  - reflexivity.
  - intros x. apply String.eqb_refl.
Qed.

(* ------------------------------------------------------------------ *)
(** ** The further properties at concrete edits *)

#[local] Existing Instance TestEditorIdentify.equals_name_to_object.

(** Two keys of one editor of the test class: two records, where an identity
    compared by name gives one. *)
Lemma repository_identities_never_fold_at_two_keys :
  let foo := TestEditorIdentify.new "foo" in
  (forall x y : TestEditorIdentify.t,
      @equals _ TestEditorIdentify.equals_name_to_object x y = false)
  /\ pushIntoUndoStack
       (newTextEditAction foo (caret 1) (caret 2) [newTextChange 1 added (js "b")])
       (newStackState foo
          [newTextEditAction foo (caret 0) (caret 1) [newTextChange 0 added (js "a")]]
          [] [])
     = (Normal tt,
        newStackState foo
          [newTextEditAction foo (caret 0) (caret 1) [newTextChange 0 added (js "a")];
           newTextEditAction foo (caret 1) (caret 2) [newTextChange 1 added (js "b")]]
          [] []).
Proof.
  intros foo.
  destruct repository_identities_never_fold as (Hpolicy & _ & Htest & _).
  split; [exact Htest |].
  exact (proj1 (Hpolicy TestEditorIdentify.t TestEditorIdentify.equals_name_to_object
                  (newTextEditAction foo (caret 1) (caret 2)
                                     [newTextChange 1 added (js "b")])
                  (newStackState foo
                     [newTextEditAction foo (caret 0) (caret 1)
                                        [newTextChange 0 added (js "a")]] [] [])
                  Htest)).
Defined.

(** Backspace right after typing [a]: a removal after an insertion, two
    records. *)
Lemma mixed_kinds_never_fold_at_type_then_backspace :
  pushIntoUndoStack (erased editorA 1 0 "a")
                    (newStackState editorA [typed editorA 0 "a"] [] [])
  = (Normal tt,
     newStackState editorA [typed editorA 0 "a"; erased editorA 1 0 "a"] [] []).
Proof.
  apply (mixed_kinds_never_fold editorA editorA editorA [] [] []
           (caret 0) (caret 1) (caret 1) (caret 0) []
           (newTextChange 0 added (js "a")) (newTextChange 0 removed (js "a"))
           eq_refl eq_refl).
  discriminate.
Defined.

(** After [b] is typed behind [a] the one record ends at the caret of [b]. *)
Lemma push_leaves_candidate_on_top_at_ab :
  fst (pushIntoUndoStack (typed editorA 1 "b")
         (newStackState editorA [typed editorA 0 "a"] [typed editorA 7 "z"] []))
  = Normal tt
  /\ canRedo (snd (pushIntoUndoStack (typed editorA 1 "b")
                     (newStackState editorA [typed editorA 0 "a"]
                                    [typed editorA 7 "z"] [])))
     = false.
Proof.
  assert (fst (pushIntoUndoStack (typed editorA 1 "b")
                 (newStackState editorA [typed editorA 0 "a"]
                                [typed editorA 7 "z"] []))
          = Normal tt) as Hret by reflexivity.
  split; [exact Hret |].
  destruct (push_leaves_candidate_on_top (typed editorA 1 "b")
              (newStackState editorA [typed editorA 0 "a"] [typed editorA 7 "z"] [])
              Hret)
    as (_ & Hredo & _).
  exact Hredo.
Defined.

(** An update without changes behind a typed [a]: the call throws, the
    notification is out, the history is as before. *)
Lemma push_throws_exactly_on_missing_changes_at_no_change :
  policyThrows (newTextEditAction editorA (caret 1) (caret 1) [])
               (newStackState editorA [typed editorA 0 "a"] [] [])
  /\ updateByTextChanges [] (caret 1) (caret 1)
                         (newStackState editorA [typed editorA 0 "a"] [] [])
     = (Throw TypeError,
        newStackState editorA [typed editorA 0 "a"] []
          [newDispatched "actionCreate"
             (newActionCreate update_
                (newTextEditAction editorA (caret 1) (caret 1) []))
             [typed editorA 0 "a"] []]).
Proof.
  assert (policyThrows (newTextEditAction editorA (caret 1) (caret 1) [])
                       (newStackState editorA [typed editorA 0 "a"] [] []))
    as Hthrows.
  { exists (typed editorA 0 "a"). repeat split. now left. }
  split; [exact Hthrows |].
  destruct (push_throws_exactly_on_missing_changes
              (newTextEditAction editorA (caret 1) (caret 1) [])
              (newStackState editorA [typed editorA 0 "a"] [] [])
              [] (caret 1) (caret 1))
    as (_ & _ & Hupdate).
  exact (Hupdate Hthrows).
Defined.

(** A session of edits that all bring changes runs to its end. *)
Lemma calls_with_changes_never_throw_at_session :
  let session :=
    [CallUpdate (js "") (js "ab") (caret 0) (caret 2);
     CallExternal (typed editorB 2 "c") (js "ab") (caret 2);
     CallUndo (js "abc");
     CallRedo (js "ab");
     CallUpdateByTextChanges [newTextChange 3 added [LF]] (caret 3) (caret 4);
     CallClear] in
  Forall bringsChanges session
  /\ runChecked session (constructor editorA) = Some (run session (constructor editorA)).
Proof.
  intros session.
  assert (Forall bringsChanges session) as Hsession.
  { repeat constructor; cbn; discriminate. }
  split; [exact Hsession |].
  exact (proj1 (calls_with_changes_never_throw session (constructor editorA)
                  (Forall_nil _) Hsession)).
Defined.

(** With the record of [a] to undo and nothing to redo, undo moves it. *)
Lemma undo_and_redo_move_one_record_at_a :
  canUndo (newStackState editorA [typed editorA 0 "a"] [] []) = true
  /\ arrayLength (undoActions
                    (snd (undo (js "a")
                            (newStackState editorA [typed editorA 0 "a"] [] []))))
     = 0%Z
  /\ redo (js "a") (newStackState editorA [typed editorA 0 "a"] [] [])
     = (Normal None, newStackState editorA [typed editorA 0 "a"] [] []).
Proof.
  destruct (undo_and_redo_move_one_record (js "a")
              (newStackState editorA [typed editorA 0 "a"] [] []))
    as (_ & _ & _ & _ & _ & _ & _ & Hnoredo & Hundo & _).
  split; [reflexivity |].
  split; [exact (proj1 (Hundo eq_refl)) | exact (Hnoredo eq_refl)].
Defined.

(** [b] to redo into [ac]: redo gives [abc], undo of [abc] gives [ac] and
    the caret before [b]. *)
Lemma undo_after_redo_restores_at_abc :
  TextDiffPatch.apply (TextDiffPatch.apply (js "ac") (textChanges (typed editorA 1 "b")))
                      (TextDiffPatch.reverse (textChanges (typed editorA 1 "b")))
  = js "ac"
  /\ exists redone undone stack1 stack2,
      redo (js "ac") (newStackState editorA [] [typed editorA 1 "b"] [])
      = (Normal (Some redone), stack1)
      /\ restoredTextContent redone = js "abc"
      /\ undo (js "abc") stack1 = (Normal (Some undone), stack2)
      /\ restoredTextContent undone = js "ac"
      /\ restoredSelection undone = caret 1.
Proof.
  assert (TextDiffPatch.apply
            (TextDiffPatch.apply (js "ac") (textChanges (typed editorA 1 "b")))
            (TextDiffPatch.reverse (textChanges (typed editorA 1 "b")))
          = js "ac") as Hcontract by reflexivity.
  split; [exact Hcontract |].
  destruct (undo_after_redo_restores editorA [] [] (typed editorA 1 "b") [] (js "ac")
              Hcontract)
    as (_ & redone & undone & stack1 & stack2 & Hredo & Hs & Hundo & Ht & Hsel & _).
  exists redone, undone, stack1, stack2.
  rewrite Hs in Hundo.
  repeat split; [exact Hredo | exact Hs | exact Hundo | exact Ht | exact Hsel].
Defined.

(** Two records, one of editor B: two undos and two redos bring both back
    under the identity of editor A. *)
Lemma undo_all_then_redo_all_at_two_records :
  undoActions
    (run (map CallUndo [js "a    x"; js "a"] ++ map CallRedo [js ""; js "a"])
         (newStackState editorA [typed editorB 0 "a"; typed editorA 5 "x"] [] []))
  = [typed editorA 0 "a"; typed editorA 5 "x"].
Proof.
  destruct (undo_all_then_redo_all editorA
              [typed editorB 0 "a"; typed editorA 5 "x"] [] []
              [js "a    x"; js "a"] [js ""; js "a"] eq_refl eq_refl)
    as (_ & _ & Hrebuilt & _).
  exact Hrebuilt.
Defined.

(** [abc] typed key by key on a new stack. *)
Lemma typed_run_is_one_record_at_abc :
  Forall (fun c => c <> LF) (js "abc")
  /\ undoActions (run (typedKeys 0 (js "abc")) (constructor editorA))
     = [typed editorA 0 "abc"].
Proof.
  assert (Forall (fun c => c <> LF) (js "abc")) as Hkeys
    by (repeat constructor; discriminate).
  split; [exact Hkeys |].
  exact (proj1 (typed_run_is_one_record (constructor editorA) 0 97%N (js "bc") (js "abc")
                  eq_refl eq_refl Hkeys)).
Defined.

(** Backspace over [c], [b], [a] from offset 3. *)
Lemma backspace_run_is_one_record_at_cba :
  Forall (fun c => c <> LF) (js "cba")
  /\ undoActions (run (backspaceKeys 3 (js "cba")) (constructor editorA))
     = [erased editorA 3 0 "abc"].
Proof.
  assert (Forall (fun c => c <> LF) (js "cba")) as Hkeys
    by (repeat constructor; discriminate).
  split; [exact Hkeys |].
  exact (proj1 (backspace_run_is_one_record (constructor editorA) 3 99%N (js "ba")
                  eq_refl eq_refl Hkeys)).
Defined.

(** Delete over [a], [b], [c] at offset 0. *)
Lemma delete_run_is_one_record_at_abc :
  Forall (fun c => c <> LF) (js "abc")
  /\ undoActions (run (deleteKeys 0 (js "abc")) (constructor editorA))
     = [erased editorA 0 0 "abc"].
Proof.
  assert (Forall (fun c => c <> LF) (js "abc")) as Hkeys
    by (repeat constructor; discriminate).
  split; [exact Hkeys |].
  exact (proj1 (delete_run_is_one_record (constructor editorA) 0 97%N (js "bc")
                  eq_refl eq_refl Hkeys)).
Defined.

(** A carriage return with a line feed typed after [a] extends the record of
    [a]. *)
Lemma only_line_feed_runs_are_kept_apart_at_crlf :
  newlinesOnly [13%N; LF] = false
  /\ pushIntoUndoStack
       (newTextEditAction editorA (caret 1) (caret 3)
                          [newTextChange 1 added [13%N; LF]])
       (newStackState editorA [typed editorA 0 "a"] [] [])
     = (Normal tt,
        newStackState editorA
          [newTextEditAction editorA (caret 0) (caret 3)
                             [newTextChange 0 added (js "a" ++ [13%N; LF])]] [] []).
Proof.
  split; [reflexivity |].
  apply (proj2 (only_line_feed_runs_are_kept_apart
                  editorA editorA editorA [] [] [] (caret 0) (caret 1) (caret 1)
                  (caret 3) [] 0 (js "a") [13%N; LF] 97%N 13%N));
    try reflexivity; try discriminate; now left.
Defined.

(* ------------------------------------------------------------------ *)
(** ** The test of the repository *)

Section FirstUpdate.

Context {Ident : Type} {identify : EditorIdentify Ident}.
Context {textDiffPatch : TextDiffPatch.Engine} {cursorPatch : CursorPatch.Engine}.

Local Open Scope Z_scope.

(** X16. The first [update] on a new stack always returns, whatever the diff
    engine reports: it returns the record made of the identity of the stack,
    the two selections and the reported changes, stores it as the only
    record, and has dispatched it once while the histories were empty.  So
    the assertion of [test/texteditactionstack.js] holds as soon as the
    engine reports the insertion of [ab] at 0 for the texts of the test. *)
Theorem first_update_returns_the_diff_record
    (id : Ident) (t0 t1 : jsString) (ls sel : TextSelection) :
  let a := newTextEditAction id ls sel (TextDiffPatch.diff t0 t1) in
  update t0 t1 ls sel (constructor id)
  = (Normal a,
     newStackState id [a] []
       [newDispatched "actionCreate" (newActionCreate update_ a) [] []])
  /\ (TextDiffPatch.diff (js "") (js "ab") = [newTextChange 0 added (js "ab")] ->
      fst (update (js "") (js "ab") (newTextSelection 0 0) (newTextSelection 2 2)
                  (constructor id))
      = Normal (newTextEditAction id (newTextSelection 0 0) (newTextSelection 2 2)
                                  [newTextChange 0 added (js "ab")])).
Proof.
  assert (forall u0 u1 s0 s1,
            update u0 u1 s0 s1 (constructor id)
            = (Normal (newTextEditAction id s0 s1 (TextDiffPatch.diff u0 u1)),
               newStackState id
                 [newTextEditAction id s0 s1 (TextDiffPatch.diff u0 u1)] []
                 [newDispatched "actionCreate"
                    (newActionCreate update_
                       (newTextEditAction id s0 s1 (TextDiffPatch.diff u0 u1)))
                    [] []])) as Hfirst.
  { intros u0 u1 s0 s1. unfold update. rewrite updateByTextChanges_eq. cbv zeta.
    rewrite pushIntoUndoStack_asIs by (left; reflexivity). reflexivity. }
  split.
  - apply Hfirst.
  - intros Hdiff. rewrite Hfirst, Hdiff. reflexivity.
Qed.

End FirstUpdate.

(** The test itself, with the sample diff engine. *)
Lemma first_update_returns_the_diff_record_at_test :
  TextDiffPatch.diff (js "") (js "ab") = [newTextChange 0 added (js "ab")]
  /\ fst (update (js "") (js "ab") (caret 0) (caret 2) (constructor editorA))
     = Normal (typed editorA 0 "ab").
Proof.
  split; [reflexivity |].
  exact (proj2 (first_update_returns_the_diff_record editorA (js "") (js "ab")
                  (caret 0) (caret 2)) eq_refl).
Defined.
